(** * A shallow embedding of the [explore] GPT client library (src/src/*.rs)

    The library is modelled at the level of its values:
    - Rust [String]s are byte strings ([String.string], one [ascii] per byte);
    - [f32] is modelled by the finite values (as rationals), the two infinities
      and NaN, with the IEEE comparisons Rust uses;
    - serde_json's text parser and serde's derived (de)serializers are modelled
      over a small JSON value type;
    - the HTTP exchange is a function supplied by the caller (the endpoint);
    - the streaming task of [ask_stream] is a function from the list of
      chunk results the body stream yields to the list of items the task
      sends into the channel, in order. *)

From Stdlib Require Import Bool Arith ZArith QArith List Lia.
From Stdlib Require Import Strings.String Strings.Ascii Numbers.DecimalString.
Import ListNotations.

Set Warnings "-register-all -abstract-large-number".

Open Scope string_scope.
Open Scope nat_scope.

(** ** Results *)

Inductive result (A E : Type) : Type :=
| Ok (a : A)
| Err (e : E).
Arguments Ok {A E} a.
Arguments Err {A E} e.

Definition bind {A B E} (m : result A E) (k : A -> result B E) : result B E :=
  match m with
  | Ok a => k a
  | Err e => Err e
  end.

Notation "'let*' x ':=' m 'in' k" := (bind m (fun x => k))
  (at level 200, x name, m at level 100, right associativity).

Fixpoint map_result {A B E} (f : A -> result B E) (l : list A) : result (list B) E :=
  match l with
  | [] => Ok []
  | x :: l' => let* y := f x in let* ys := map_result f l' in Ok (y :: ys)
  end.

(** ** Byte-string helpers (the [str] methods the code calls) *)

Module Str.

Definition nl : ascii := "010"%char.

(** [s.find("\n\n")]: the byte index of the first occurrence. *)
Fixpoint find_nn (s : string) : option nat :=
  match s with
  | String a ((String b _) as t) =>
      if Ascii.eqb a nl && Ascii.eqb b nl then Some 0
      else option_map S (find_nn t)
  | _ => None
  end.

(** [&s[n..]] *)
Fixpoint drop (n : nat) (s : string) : string :=
  match n, s with
  | O, _ => s
  | S n', String _ s' => drop n' s'
  | S _, EmptyString => EmptyString
  end.

(** [&s[..n]] *)
Fixpoint take (n : nat) (s : string) : string :=
  match n, s with
  | O, _ => EmptyString
  | S n', String c s' => String c (take n' s')
  | S _, EmptyString => EmptyString
  end.

(** [s.starts_with(p)] *)
Definition starts_with (s p : string) : bool := String.prefix p s.

(** [s.trim_start_matches(p)]: strips [p] from the front as long as it is
    there (every repetition, not once). *)
Fixpoint trim_start_matches_aux (fuel : nat) (s p : string) : string :=
  match fuel with
  | O => s
  | S f =>
      if (0 <? String.length p)%nat && String.prefix p s
      then trim_start_matches_aux f (drop (String.length p) s) p
      else s
  end.

Definition trim_start_matches (s p : string) : string :=
  trim_start_matches_aux (String.length s) s p.

Definition is_empty (s : string) : bool := String.eqb s EmptyString.

(** [String::from_utf8]: accepts exactly the well-formed UTF-8 byte strings
    (no overlong forms, no surrogates, nothing above U+10FFFF). *)
Definition byte (c : ascii) : nat := nat_of_ascii c.
Definition in_range (c : ascii) (lo hi : nat) : bool :=
  (lo <=? byte c) && (byte c <=? hi).
Definition cont (c : ascii) : bool := in_range c 128 191.

Inductive lead := Lead1 | Lead2 | Lead3 (lo hi : nat) | Lead4 (lo hi : nat) | LeadBad.

Definition lead_of (c : ascii) : lead :=
  let b := byte c in
  if b <? 128 then Lead1
  else if (194 <=? b) && (b <=? 223) then Lead2
  else if b =? 224 then Lead3 160 191
  else if (225 <=? b) && (b <=? 236) then Lead3 128 191
  else if b =? 237 then Lead3 128 159
  else if (238 <=? b) && (b <=? 239) then Lead3 128 191
  else if b =? 240 then Lead4 144 191
  else if (241 <=? b) && (b <=? 243) then Lead4 128 191
  else if b =? 244 then Lead4 128 143
  else LeadBad.

Fixpoint utf8_valid (s : string) : bool :=
  match s with
  | EmptyString => true
  | String c1 r1 =>
      match lead_of c1 with
      | Lead1 => utf8_valid r1
      | Lead2 =>
          match r1 with
          | String c2 r2 => cont c2 && utf8_valid r2
          | _ => false
          end
      | Lead3 lo hi =>
          match r1 with
          | String c2 (String c3 r3) => in_range c2 lo hi && cont c3 && utf8_valid r3
          | _ => false
          end
      | Lead4 lo hi =>
          match r1 with
          | String c2 (String c3 (String c4 r4)) =>
              in_range c2 lo hi && cont c3 && cont c4 && utf8_valid r4
          | _ => false
          end
      | LeadBad => false
      end
  end.

(** UTF-8 encoding of a Unicode scalar value. *)
Definition utf8_encode (cp : N) : string :=
  let b (n : N) := ascii_of_N n in
  if (cp <? 128)%N then String (b cp) EmptyString
  else if (cp <? 2048)%N then
    String (b (192 + cp / 64)%N) (String (b (128 + cp mod 64)%N) EmptyString)
  else if (cp <? 65536)%N then
    String (b (224 + cp / 4096)%N)
      (String (b (128 + (cp / 64) mod 64)%N) (String (b (128 + cp mod 64)%N) EmptyString))
  else
    String (b (240 + cp / 262144)%N)
      (String (b (128 + (cp / 4096) mod 64)%N)
        (String (b (128 + (cp / 64) mod 64)%N) (String (b (128 + cp mod 64)%N) EmptyString))).

End Str.

(** ** JSON (serde_json) *)

Module Json.

(** JSON values. Numbers read from text keep their lexeme; [JFloat] is a
    finite [f32] written by serde_json's float formatter (its digits are not
    modelled, the serializer is only ever inspected by key). [JSkip] is a
    well-formed value that serde_json can only skip ([IgnoredAny]): a string
    literal that is no Rust [String] (a lone surrogate escape, or bytes that
    are not UTF-8), or an object with such a key. *)
Inductive json :=
| JNull
| JBool (b : bool)
| JNum (lexeme : string)
| JFloat (q : Q)
| JStr (s : string)
| JArr (l : list json)
| JObj (members : list (string * json))
| JSkip.

Definition is_ws (c : ascii) : bool :=
  let n := Str.byte c in (n =? 32) || (n =? 9) || (n =? 10) || (n =? 13).

Fixpoint skip_ws (s : string) : string :=
  match s with
  | String c r => if is_ws c then skip_ws r else s
  | EmptyString => s
  end.

Definition is_digit (c : ascii) : bool := Str.in_range c 48 57.

Fixpoint take_digits (s : string) : string * string :=
  match s with
  | String c r =>
      if is_digit c then let '(ds, r') := take_digits r in (String c ds, r') else (EmptyString, s)
  | EmptyString => (EmptyString, EmptyString)
  end.

(** The number grammar: [-? (0 | [1-9][0-9]* ) (. [0-9]+)? ([eE] [+-]? [0-9]+)?] *)
Definition parse_number (s : string) : option (string * string) :=
  let '(sign, s1) := match s with String "-" r => ("-", r) | _ => (EmptyString, s) end in
  let int_part :=
    match s1 with
    | String "0" r => Some ("0", r)
    | String c r =>
        if is_digit c then let '(ds, r') := take_digits r in Some (String c ds, r')
        else None
    | EmptyString => None
    end in
  match int_part with
  | None => None
  | Some (ip, r1) =>
      let frac :=
        match r1 with
        | String "." r =>
            let '(ds, r') := take_digits r in
            if Str.is_empty ds then None else Some ("." ++ ds, r')
        | _ => Some (EmptyString, r1)
        end in
      match frac with
      | None => None
      | Some (fp, r2) =>
          let exp :=
            match r2 with
            | String e r =>
                if (Ascii.eqb e "e") || (Ascii.eqb e "E") then
                  let '(es, r3) :=
                    match r with
                    | String "+" r' => ("+", r')
                    | String "-" r' => ("-", r')
                    | _ => (EmptyString, r)
                    end in
                  let '(ds, r4) := take_digits r3 in
                  if Str.is_empty ds then None else Some (String e (es ++ ds), r4)
                else Some (EmptyString, r2)
            | EmptyString => Some (EmptyString, r2)
            end in
          match exp with
          | None => None
          | Some (xp, r3) => Some (sign ++ ip ++ fp ++ xp, r3)
          end
      end
  end.

Definition hex_val (c : ascii) : option N :=
  let n := Str.byte c in
  if (48 <=? n) && (n <=? 57) then Some (N.of_nat (n - 48))
  else if (65 <=? n) && (n <=? 70) then Some (N.of_nat (n - 55))
  else if (97 <=? n) && (n <=? 102) then Some (N.of_nat (n - 87))
  else None.

Definition hex4 (a b c d : ascii) : option N :=
  match hex_val a, hex_val b, hex_val c, hex_val d with
  | Some w, Some x, Some y, Some z => Some (((w * 16 + x) * 16 + y) * 16 + z)%N
  | _, _, _, _ => None
  end.

(** The body of a string literal after its opening quote: whether it reads
    as a Rust [String], the decoded bytes and the text after the closing
    quote. Raw control characters and malformed escapes are refused. A [\u]
    escape of a high surrogate followed by one of a low surrogate is one
    character; any other surrogate escape is only accepted when the literal
    is skipped ([ignore_str] reads four hex digits and goes on), so it makes
    the literal no [String]. *)
Fixpoint parse_str (fuel : nat) (s : string) : option (bool * string * string) :=
  match fuel with
  | O => None
  | S f =>
      let cons_str (t : string) (r' : string) :=
        match parse_str f r' with
        | Some (ok, u, r'') => Some (ok, t ++ u, r'')
        | None => None
        end in
      let lone (r' : string) :=
        match parse_str f r' with
        | Some (_, u, r'') => Some (false, u, r'')
        | None => None
        end in
      match s with
      | EmptyString => None
      | String "034" r => Some (true, EmptyString, r)
      | String "\" r =>
          match r with
          | String "034" r' => cons_str (String "034" EmptyString) r'
          | String "\" r' => cons_str (String "\" EmptyString) r'
          | String "/" r' => cons_str (String "/" EmptyString) r'
          | String "b" r' => cons_str (String "008" EmptyString) r'
          | String "f" r' => cons_str (String "012" EmptyString) r'
          | String "n" r' => cons_str (String "010" EmptyString) r'
          | String "r" r' => cons_str (String "013" EmptyString) r'
          | String "t" r' => cons_str (String "009" EmptyString) r'
          | String "u" (String a (String b (String c (String d r')))) =>
              match hex4 a b c d with
              | None => None
              | Some hi =>
                  if (55296 <=? hi)%N && (hi <=? 56319)%N then
                    match r' with
                    | String "\" (String "u" (String a2 (String b2 (String c2 (String d2 r''))))) =>
                        match hex4 a2 b2 c2 d2 with
                        | Some lo =>
                            if (56320 <=? lo)%N && (lo <=? 57343)%N then
                              cons_str
                                (Str.utf8_encode (65536 + (hi - 55296) * 1024 + (lo - 56320))%N) r''
                            else lone r'
                        | None => lone r'
                        end
                    | _ => lone r'
                    end
                  else if (56320 <=? hi)%N && (hi <=? 57343)%N then lone r'
                  else cons_str (Str.utf8_encode hi) r'
              end
          | _ => None
          end
      | String c r => if Str.byte c <? 32 then None else cons_str (String c EmptyString) r
      end
  end.

(** A string literal read as a [String]: no lone surrogate and UTF-8 bytes
    ([from_slice] checks the bytes of the strings it reads, not of those it
    skips; a [from_str] input is UTF-8 already). *)
Definition str_ok (ok : bool) (t : string) : bool := ok && Str.utf8_valid t.

Fixpoint parse_value (fuel : nat) (s : string) {struct fuel} : option (json * string) :=
  match fuel with
  | O => None
  | S f =>
      match skip_ws s with
      | String "n" (String "u" (String "l" (String "l" r))) => Some (JNull, r)
      | String "t" (String "r" (String "u" (String "e" r))) => Some (JBool true, r)
      | String "f" (String "a" (String "l" (String "s" (String "e" r)))) => Some (JBool false, r)
      | String "034" r =>
          match parse_str (String.length r) r with
          | Some (ok, t, r') => Some (if str_ok ok t then JStr t else JSkip, r')
          | None => None
          end
      | String "[" r =>
          match skip_ws r with
          | String "]" r' => Some (JArr [], r')
          | r1 => parse_elems f r1 []
          end
      | String "{" r =>
          match skip_ws r with
          | String "}" r' => Some (JObj [], r')
          | r1 => parse_members f r1 true []
          end
      | s' =>
          match parse_number s' with
          | Some (lx, r) => Some (JNum lx, r)
          | None => None
          end
      end
  end
with parse_elems (fuel : nat) (s : string) (acc : list json) {struct fuel}
  : option (json * string) :=
  match fuel with
  | O => None
  | S f =>
      match parse_value f s with
      | None => None
      | Some (v, r) =>
          match skip_ws r with
          | String "," r' => parse_elems f r' (v :: acc)
          | String "]" r' => Some (JArr (rev (v :: acc)), r')
          | _ => None
          end
      end
  end
with parse_members (fuel : nat) (s : string) (keys_ok : bool) (acc : list (string * json))
  {struct fuel} : option (json * string) :=
  match fuel with
  | O => None
  | S f =>
      match skip_ws s with
      | String "034" r =>
          match parse_str (String.length r) r with
          | None => None
          | Some (ok, k, r1) =>
              let keys_ok := keys_ok && str_ok ok k in
              match skip_ws r1 with
              | String ":" r2 =>
                  match parse_value f r2 with
                  | None => None
                  | Some (v, r3) =>
                      match skip_ws r3 with
                      | String "," r4 => parse_members f r4 keys_ok ((k, v) :: acc)
                      | String "}" r4 =>
                          Some (if keys_ok then JObj (rev ((k, v) :: acc)) else JSkip, r4)
                      | _ => None
                      end
                  end
              | _ => None
              end
          end
      | _ => None
      end
  end.

(** [serde_json::from_str] / [from_slice] at the level of JSON values: one
    value, then only whitespace. (The fuel bounds the nesting; two steps per
    consumed byte always suffice.) The error carries no text: see
    [parse_msg]. *)
Definition parse (s : string) : result json unit :=
  match parse_value (2 * String.length s + 2) s with
  | Some (v, r) =>
      if Str.is_empty (skip_ws r) then Ok v else Err tt
  | None => Err tt
  end.

End Json.

(** ** serde's derived deserializers, for the shapes the models use *)

(** An error of a deserializer carries no text: see [parse_msg]. *)
Module De.
Import Json.

Definition de_string (v : json) : result string unit :=
  match v with
  | JStr s => Ok s
  | _ => Err tt
  end.

(** [Option<T>]: [null] is [None]. *)
Definition de_option {A} (d : json -> result A unit) (v : json)
  : result (option A) unit :=
  match v with
  | JNull => Ok None
  | _ => let* a := d v in Ok (Some a)
  end.

Definition de_vec {A} (d : json -> result A unit) (v : json)
  : result (list A) unit :=
  match v with
  | JArr l => map_result d l
  | _ => Err tt
  end.

Fixpoint digits_value (s : string) (acc : Z) : option Z :=
  match s with
  | EmptyString => Some acc
  | String c r =>
      if is_digit c then digits_value r (acc * 10 + Z.of_nat (Str.byte c - 48))%Z
      else None
  end.

(** A number lexeme read as an integer: only [-?digits] qualifies; a
    fraction or exponent makes it a float. *)
Definition int_of_lexeme (lx : string) : option Z :=
  match lx with
  | String "-" r => option_map Z.opp (digits_value r 0%Z)
  | _ => digits_value lx 0%Z
  end.

(** [i32]: an integer in range; a float is an invalid type. *)
Definition de_i32 (v : json) : result Z unit :=
  match v with
  | JNum lx =>
      match int_of_lexeme lx with
      | Some z =>
          if (-2147483648 <=? z)%Z && (z <=? 2147483647)%Z then Ok z
          else Err tt
      | None => Err tt
      end
  | _ => Err tt
  end.

(** The value of key [k] in an object: a key given twice is refused
    ("duplicate field"), unknown keys are ignored by the callers. *)
Definition field (k : string) (m : list (string * json)) : result (option json) unit :=
  match map snd (filter (fun kv => String.eqb (fst kv) k) m) with
  | [] => Ok None
  | [v] => Ok (Some v)
  | _ => Err tt
  end.

(** A field of type [Option<T>]: absent or [null] is [None]. *)
Definition opt_field {A} (d : json -> result A unit) (k : string)
  (m : list (string * json)) : result (option A) unit :=
  let* o := field k m in
  match o with
  | None => Ok None
  | Some v => de_option d v
  end.

(** A field of any other type: absent is an error (serde's "missing field"). *)
Definition req_field {A} (d : json -> result A unit) (k : string)
  (m : list (string * json)) : result A unit :=
  let* o := field k m in
  match o with
  | None => Err tt
  | Some v => d v
  end.

End De.

(** ** Models (src/src/models.rs) *)

(** [f32]: finite values, the infinities and NaN, with Rust's comparisons
    (every comparison with NaN is false). Signed zero is not distinguished. *)
Inductive f32 :=
| Fin (q : Q)
| PosInf
| NegInf
| NaN.

Definition f32_lt (x y : f32) : bool :=
  match x, y with
  | Fin a, Fin b => negb (Qle_bool b a)
  | NegInf, (Fin _ | PosInf) => true
  | Fin _, PosInf => true
  | _, _ => false
  end.

(** [f32::clamp] (min <= max holds at every call site):
    [if self < min { self = min } if self > max { self = max } self]. *)
Definition f32_clamp (x min max : f32) : f32 :=
  let x := if f32_lt x min then min else x in
  if f32_lt max x then max else x.

Definition is_nan (x : f32) : bool := match x with NaN => true | _ => false end.

(** Bounded by [lo] and [hi] in the order of the reals. *)
Definition f32_within (x : f32) (lo hi : Q) : Prop :=
  match x with
  | Fin q => (lo <= q <= hi)%Q
  | _ => False
  end.

(** The [f32] literals the code uses, at their exact binary32 values. *)
Definition f32_0_7 : f32 := Fin (11744051 # 16777216).
Definition f32_0_8 : f32 := Fin (13421773 # 16777216).
Definition f32_0_95 : f32 := Fin (15938355 # 16777216).
Definition f32_of_Z (z : Z) : f32 := Fin (inject_Z z).

Module Message.
Record t := mk { role : string; content : string }.
End Message.

Module GptRequest.
Record t := mk {
  messages : list Message.t;
  temperature : f32;
  max_tokens : Z;
  top_p : f32;
  frequency_penalty : f32;
  presence_penalty : f32;
  stop : option (list string);
  stream : bool }.
End GptRequest.

Module ResponseMessage.
Record t := mk { content : string; role : option string }.
End ResponseMessage.

Module Delta.
Record t := mk { content : option string; role : option string }.
End Delta.

Module Choice.
Record t := mk {
  message : option ResponseMessage.t;
  delta : option Delta.t;
  finish_reason : option string;
  index : Z }.
End Choice.

Module GptResponse.
Record t := mk { id : option string; choices : list Choice.t }.
End GptResponse.

(** [#[derive(Deserialize)]] of the response structs. serde_json hands a
    struct either a JSON object ([visit_map]: fields by name, unknown keys
    skipped) or a JSON array ([visit_seq]: the fields in declaration order,
    exactly as many elements as fields, an [Option] field included). *)
Module Deserialize.
Import Json De.

Definition response_message (v : json) : result ResponseMessage.t unit :=
  match v with
  | JObj m =>
      let* content := req_field de_string "content" m in
      let* role := opt_field de_string "role" m in
      Ok (ResponseMessage.mk content role)
  | JArr [c; r] =>
      let* content := de_string c in
      let* role := de_option de_string r in
      Ok (ResponseMessage.mk content role)
  | _ => Err tt
  end.

Definition delta (v : json) : result Delta.t unit :=
  match v with
  | JObj m =>
      let* content := opt_field de_string "content" m in
      let* role := opt_field de_string "role" m in
      Ok (Delta.mk content role)
  | JArr [c; r] =>
      let* content := de_option de_string c in
      let* role := de_option de_string r in
      Ok (Delta.mk content role)
  | _ => Err tt
  end.

Definition choice (v : json) : result Choice.t unit :=
  match v with
  | JObj m =>
      let* message := opt_field response_message "message" m in
      let* delta := opt_field delta "delta" m in
      let* finish_reason := opt_field de_string "finish_reason" m in
      let* index := req_field de_i32 "index" m in
      Ok (Choice.mk message delta finish_reason index)
  | JArr [m; d; f; i] =>
      let* message := de_option response_message m in
      let* delta := de_option delta d in
      let* finish_reason := de_option de_string f in
      let* index := de_i32 i in
      Ok (Choice.mk message delta finish_reason index)
  | _ => Err tt
  end.

Definition gpt_response (v : json) : result GptResponse.t unit :=
  match v with
  | JObj m =>
      let* id := opt_field de_string "id" m in
      let* choices := req_field (de_vec choice) "choices" m in
      Ok (GptResponse.mk id choices)
  | JArr [i; c] =>
      let* id := de_option de_string i in
      let* choices := de_vec choice c in
      Ok (GptResponse.mk id choices)
  | _ => Err tt
  end.

End Deserialize.

(** [serde_json::from_str::<GptResponse>], and [serde_json::from_slice] on
    the bytes of a body (the two agree on UTF-8 text). *)
Definition from_str_GptResponse (s : string) : result GptResponse.t unit :=
  let* v := Json.parse s in Deserialize.gpt_response v.

(** ** Errors (src/src/error.rs) *)

(** A [reqwest::Error] (connection failure, premature close, ...). *)
Inductive reqwest_error := TransportFailure (detail : string).

(** The text of a [ParseError]. lib.rs writes it as a literal, or as
    [e.to_string()] of the error that [serde_json::from_str] raised on a
    frame's payload, or that [Response::json] raised on a body: while
    decoding it (reqwest's "error decoding response body" around
    serde_json's message and its "at line L column C"), or while reading
    it. Those texts are not spelled out here: each is kept as the input
    that raised it, which determines it. Two messages equal here are equal
    strings; the converse is not claimed. *)
Inductive parse_msg :=
| Literal (s : string)
| SerdeJsonError (payload : string)
| JsonBodyError (body : string)
| BodyReadError (e : reqwest_error).

Coercion Literal : string >-> parse_msg.

Inductive GptError :=
| RequestError (e : reqwest_error)
| HeaderError
| ApiError (status_code : Z) (message : string)
| ParseError (detail : parse_msg)
| ConfigError (detail : string).

(** ** Configuration (src/src/config.rs) *)

Module GptConfig.
Record t := mk {
  temperature : f32;
  max_tokens : Z;
  top_p : f32;
  frequency_penalty : f32;
  presence_penalty : f32;
  stop : option (list string) }.

(** [impl Default for GptConfig] *)
Definition default : t :=
  mk f32_0_7 800 f32_0_95 (f32_of_Z 0) (f32_of_Z 0) None.
End GptConfig.

Module GptConfigBuilder.
Record t := mk {
  temperature : option f32;
  max_tokens : option Z;
  top_p : option f32;
  frequency_penalty : option f32;
  presence_penalty : option f32;
  stop : option (list string) }.

(** [#[derive(Default)]]: every field [None]. *)
Definition default : t := mk None None None None None None.

Definition set_temperature (b : t) (temp : f32) : t :=
  mk (Some (f32_clamp temp (f32_of_Z 0) (f32_of_Z 2)))
     (max_tokens b) (top_p b) (frequency_penalty b) (presence_penalty b) (stop b).

(** [max_tokens] stores its [u32] argument as given. *)
Definition set_max_tokens (b : t) (tokens : Z) : t :=
  mk (temperature b) (Some tokens)
     (top_p b) (frequency_penalty b) (presence_penalty b) (stop b).

Definition set_top_p (b : t) (top_p : f32) : t :=
  mk (temperature b) (max_tokens b) (Some (f32_clamp top_p (f32_of_Z 0) (f32_of_Z 1)))
     (frequency_penalty b) (presence_penalty b) (stop b).

Definition set_frequency_penalty (b : t) (penalty : f32) : t :=
  mk (temperature b) (max_tokens b) (top_p b)
     (Some (f32_clamp penalty (f32_of_Z (-2)) (f32_of_Z 2)))
     (presence_penalty b) (stop b).

Definition set_presence_penalty (b : t) (penalty : f32) : t :=
  mk (temperature b) (max_tokens b) (top_p b) (frequency_penalty b)
     (Some (f32_clamp penalty (f32_of_Z (-2)) (f32_of_Z 2))) (stop b).

Definition set_stop (b : t) (stop : list string) : t :=
  mk (temperature b) (max_tokens b) (top_p b) (frequency_penalty b)
     (presence_penalty b) (Some stop).

Definition build (b : t) : GptConfig.t :=
  let d := GptConfig.default in
  GptConfig.mk
    (match temperature b with Some x => x | None => GptConfig.temperature d end)
    (match max_tokens b with Some x => x | None => GptConfig.max_tokens d end)
    (match top_p b with Some x => x | None => GptConfig.top_p d end)
    (match frequency_penalty b with Some x => x | None => GptConfig.frequency_penalty d end)
    (match presence_penalty b with Some x => x | None => GptConfig.presence_penalty d end)
    (stop b).

(** A call of one of the fluent setters, with its raw argument (a [u32]
    for [max_tokens]). *)
Inductive setter :=
| Temperature (x : f32)
| MaxTokens (n : Z)
| TopP (x : f32)
| FrequencyPenalty (x : f32)
| PresencePenalty (x : f32)
| Stop (l : list string).

Definition apply (b : t) (s : setter) : t :=
  match s with
  | Temperature x => set_temperature b x
  | MaxTokens n => set_max_tokens b n
  | TopP x => set_top_p b x
  | FrequencyPenalty x => set_frequency_penalty b x
  | PresencePenalty x => set_presence_penalty b x
  | Stop l => set_stop b l
  end.

(** [GptConfig::builder().s1(..).s2(..)...build()] *)
Definition run (calls : list setter) : GptConfig.t :=
  build (fold_left apply calls default).

(** Whether a setter call's [f32] argument is a number (not NaN). *)
Definition no_nan_arg (s : setter) : bool :=
  match s with
  | Temperature x | TopP x | FrequencyPenalty x | PresencePenalty x => negb (is_nan x)
  | MaxTokens _ | Stop _ => true
  end.

(** The argument of the last [max_tokens] call, [init] when there is none. *)
Fixpoint last_max_tokens (calls : list setter) (init : option Z) : option Z :=
  match calls with
  | [] => init
  | MaxTokens n :: r => last_max_tokens r (Some n)
  | _ :: r => last_max_tokens r init
  end.

Definition is_u32 (s : setter) : Prop :=
  match s with MaxTokens n => (0 <= n < 4294967296)%Z | _ => True end.
End GptConfigBuilder.

(** ** Client (src/src/lib.rs) *)

Module GptClient.
(** The pooled [reqwest::Client] carries no state the library reads and is
    left out. *)
Record t := mk { api_url : string; api_key : string; config : GptConfig.t }.
End GptClient.

Definition header_map := list (string * string).

(** [HeaderValue::from_str]: visible ASCII, tab and bytes 128..255. *)
Definition header_value_ok (s : string) : bool :=
  forallb (fun c => let n := Str.byte c in ((32 <=? n) && negb (n =? 127)) || (n =? 9))
    (list_ascii_of_string s).

Definition build_headers (self : GptClient.t) : result header_map GptError :=
  if header_value_ok (GptClient.api_key self)
  then Ok [("api-key", GptClient.api_key self); ("content-type", "application/json")]
  else Err HeaderError.

Definition build_request (self : GptClient.t) (message : string) : GptRequest.t :=
  let c := GptClient.config self in
  GptRequest.mk [Message.mk "user" message]
    (GptConfig.temperature c) (GptConfig.max_tokens c) (GptConfig.top_p c)
    (GptConfig.frequency_penalty c) (GptConfig.presence_penalty c)
    (GptConfig.stop c) false.

Definition with_stream (r : GptRequest.t) (b : bool) : GptRequest.t :=
  GptRequest.mk (GptRequest.messages r) (GptRequest.temperature r)
    (GptRequest.max_tokens r) (GptRequest.top_p r) (GptRequest.frequency_penalty r)
    (GptRequest.presence_penalty r) (GptRequest.stop r) b.

(** An HTTP response: its status, its body as [Response::bytes] reads it
    (for [.json()]: the bytes, or the error met reading them) and as
    [Response::text] reads it (the bytes decoded by the charset of the
    Content-Type, UTF-8 by default, with invalid sequences replaced, or the
    error met reading them). A response is read once, by one of the two. *)
Record http_response := {
  status : Z;
  body : result string reqwest_error;
  text : result string reqwest_error }.

(** The remote end of [self.client.post(url).headers(h).json(&req).send()],
    with the body read by [.json()] / [.text()]. *)
Definition endpoint := string -> header_map -> GptRequest.t -> result http_response reqwest_error.

Definition is_success (status : Z) : bool := (200 <=? status)%Z && (status <=? 299)%Z.

(** [handle_error_response]:
    [response.text().await.unwrap_or_else(|_| "Unknown error".to_string())]
    and the status, in an [ApiError]. *)
Definition handle_error_response {T} (status : Z) (text : result string reqwest_error)
  : result T GptError :=
  Err (ApiError status (match text with Ok t => t | Err _ => "Unknown error" end)).

(** [GptClient::ask] *)
Definition ask (send : endpoint) (self : GptClient.t) (message : string)
  : result string GptError :=
  match build_headers self with
  | Err e => Err e
  | Ok headers =>
      let request := with_stream (build_request self message) false in
      match send (GptClient.api_url self) headers request with
      | Err e => Err (RequestError e)
      | Ok response =>
          if negb (is_success (status response))
          then handle_error_response (status response) (text response)
          else
            match body response with
            | Err e => Err (ParseError (BodyReadError e))
            | Ok bytes =>
            match from_str_GptResponse bytes with
            | Err _ => Err (ParseError (JsonBodyError bytes))
            | Ok response_data =>
                match hd_error (GptResponse.choices response_data) with
                | Some choice =>
                    match Choice.message choice with
                    | Some msg => Ok (ResponseMessage.content msg)
                    | None => Err (ParseError "No response content available")
                    end
                | None => Err (ParseError "No response content available")
                end
            end
            end
      end
  end.

Module GptClientBuilder.
Record t := mk {
  api_url : option string;
  api_key : option string;
  config : option GptConfig.t }.

Definition default : t := mk None None None.
Definition set_api_url (b : t) (url : string) : t := mk (Some url) (api_key b) (config b).
Definition set_api_key (b : t) (key : string) : t := mk (api_url b) (Some key) (config b).
Definition set_config (b : t) (c : GptConfig.t) : t := mk (api_url b) (api_key b) (Some c).

Definition build (b : t) : result GptClient.t GptError :=
  match api_url b with
  | None => Err (ConfigError "API URL is required")
  | Some url =>
      match api_key b with
      | None => Err (ConfigError "API key is required")
      | Some key =>
          Ok (GptClient.mk url key
                (match config b with Some c => c | None => GptConfig.default end))
      end
  end.
End GptClientBuilder.

(** [#[derive(Serialize)]] of the request: fields in declaration order,
    [stop] skipped when [None] ([skip_serializing_if = "Option::is_none"]).
    A non-finite [f32] is written as [null]. *)
Module Serialize.
Import Json.

Definition f32_value (x : f32) : json :=
  match x with Fin q => JFloat q | _ => JNull end.

Definition u32_value (n : Z) : json := JNum (NilEmpty.string_of_int (Z.to_int n)).

Definition message (m : Message.t) : json :=
  JObj [("role", JStr (Message.role m)); ("content", JStr (Message.content m))].

Definition gpt_request (r : GptRequest.t) : json :=
  JObj ([("messages", JArr (map message (GptRequest.messages r)));
         ("temperature", f32_value (GptRequest.temperature r));
         ("max_tokens", u32_value (GptRequest.max_tokens r));
         ("top_p", f32_value (GptRequest.top_p r));
         ("frequency_penalty", f32_value (GptRequest.frequency_penalty r));
         ("presence_penalty", f32_value (GptRequest.presence_penalty r))]
        ++ match GptRequest.stop r with
           | Some l => [("stop", JArr (map JStr l))]
           | None => []
           end
        ++ [("stream", JBool (GptRequest.stream r))]).

Definition keys (v : json) : list string :=
  match v with JObj m => map fst m | _ => [] end.

Definition lookup (k : string) (v : json) : option json :=
  match v with
  | JObj m => option_map snd (find (fun kv => String.eqb (fst kv) k) m)
  | _ => None
  end.
End Serialize.

(** ** The stream decoder: the task spawned by [GptClient::ask_stream] *)

Module Decoder.

(** What the task sends into the channel. [let _ = tx.send(..).await]
    ignores a closed channel, so the consumer sees a prefix of the sent
    items when it drops its end early. *)
Definition item := result string GptError.

(** One frame's payload that is not the sentinel: decode it and send the
    first choice's non-empty delta content, or the parse error. *)
Definition on_data (data : string) : list item :=
  match from_str_GptResponse data with
  | Ok response =>
      match hd_error (GptResponse.choices response) with
      | Some choice =>
          match Choice.delta choice with
          | Some delta =>
              match Delta.content delta with
              | Some content => if negb (Str.is_empty content) then [Ok content] else []
              | None => []
              end
          | None => []
          end
      | None => []
      end
  | Err _ => [Err (ParseError (SerdeJsonError data))]
  end.

(** The inner [while let Some(pos) = buffer.find("\n\n")] loop: the items
    sent and the buffer left. [break] on [[DONE]] leaves this loop only. *)
Fixpoint drain_loop (fuel : nat) (buffer : string) : list item * string :=
  match fuel with
  | O => ([], buffer)
  | S f =>
      match Str.find_nn buffer with
      | None => ([], buffer)
      | Some pos =>
          let message := Str.take pos buffer in
          let buffer := Str.drop (pos + 2) buffer in
          if Str.starts_with message "data: " then
            let data := Str.trim_start_matches message "data: " in
            if String.eqb data "[DONE]" then ([], buffer)
            else
              let '(sent, buffer) := drain_loop f buffer in
              ((on_data data ++ sent)%list, buffer)
          else drain_loop f buffer
      end
  end.

(** Every iteration but the last removes at least two bytes, so the length
    of the buffer bounds the iterations. *)
Definition drain (buffer : string) : list item * string :=
  drain_loop (String.length buffer) buffer.

(** One [Ok(chunk)] of the body: appended when it is valid UTF-8, dropped
    otherwise. *)
Definition on_chunk (buffer chunk : string) : list item * string :=
  if Str.utf8_valid chunk then drain (buffer ++ chunk) else ([], buffer).

(** The outer [while let Some(chunk_result) = stream.next().await] loop:
    a transport error is sent once and ends the task. *)
Fixpoint task (buffer : string) (stream : list (result string reqwest_error)) : list item :=
  match stream with
  | [] => []
  | Ok chunk :: rest =>
      let '(sent, buffer) := on_chunk buffer chunk in
      (sent ++ task buffer rest)%list
  | Err e :: _ => [Err (RequestError e)]
  end.

(** The task started with [let mut buffer = String::new()]. *)
Definition decode (stream : list (result string reqwest_error)) : list item :=
  task EmptyString stream.

(** A well-formed SSE data frame with payload [p]. *)
Definition frame (p : string) : string :=
  "data: " ++ p ++ String Str.nl (String Str.nl EmptyString).



Fixpoint join (chunks : list string) : string :=
  match chunks with
  | [] => EmptyString
  | c :: cs => c ++ join cs
  end.

(** A payload that fits in one SSE frame: no blank line inside it and no
    trailing newline, so the frame's own terminator is its first "\n\n". *)
Definition sse_payload (p : string) : Prop :=
  Str.find_nn (p ++ String Str.nl EmptyString) = None.

(** A frame payload the loop decodes (not the sentinel, not itself starting
    with the prefix). *)
Definition frame_ok (p : string) : Prop :=
  sse_payload p /\ String.prefix "data: " p = false /\ p <> "[DONE]".


(** Whether the inner loop stops at a sentinel frame while draining
    [buffer] (the [break] of [drain_loop]). *)
Fixpoint hits_sentinel_loop (fuel : nat) (buffer : string) : bool :=
  match fuel with
  | O => false
  | S f =>
      match Str.find_nn buffer with
      | None => false
      | Some pos =>
          let message := Str.take pos buffer in
          let buffer := Str.drop (pos + 2) buffer in
          if Str.starts_with message "data: " then
            if String.eqb (Str.trim_start_matches message "data: ") "[DONE]" then true
            else hits_sentinel_loop f buffer
          else hits_sentinel_loop f buffer
      end
  end.

Definition hits_sentinel (buffer : string) : bool :=
  hits_sentinel_loop (String.length buffer) buffer.

End Decoder.

(** ** Concrete inputs used by the scenarios below *)

Module Scenario.

(** JSON text written with single quotes in place of double quotes. *)
Fixpoint jq (s : string) : string :=
  match s with
  | EmptyString => EmptyString
  | String c r => String (if Ascii.eqb c "'"%char then "034"%char else c) (jq r)
  end.

(** An endpoint answering every request with [code] and the ASCII body [b]
    (which [.text()] reads unchanged). *)
Definition respond (code : Z) (b : string) : endpoint :=
  fun _ _ _ => Ok {| status := code; body := Ok b; text := Ok b |}.

Definition body_spec : string := jq "{'choices':[{'message':{'content':'hello'}}]}".
Definition body_indexed : string :=
  jq "{'choices':[{'message':{'content':'hello'},'index':0}]}".

(** [GptConfig::builder().temperature(0.8).max_tokens(1000).build()] (as in main.rs) *)
Definition main_config : GptConfig.t :=
  GptConfigBuilder.run [GptConfigBuilder.Temperature f32_0_8; GptConfigBuilder.MaxTokens 1000].

Definition main_builder (url key : string) : GptClientBuilder.t :=
  GptClientBuilder.set_config
    (GptClientBuilder.set_api_key (GptClientBuilder.set_api_url GptClientBuilder.default url) key)
    main_config.

(** A streaming payload whose first choice carries [c] as delta content. *)
Definition delta_payload (c : string) : string :=
  jq "{'choices':[{'delta':{'content':'" ++ c ++ jq "'},'index':0}]}".



End Scenario.

(** ** [ask_stream] (src/src/lib.rs) *)

(** [HeaderMap::insert]: a name already present has its value replaced, a
    new one is added at the end. Header names are stored lower-cased, so
    ["Accept"] is the entry ["accept"]. *)
Definition header_insert (k v : string) (h : header_map) : header_map :=
  if existsb (fun kv => String.eqb (fst kv) k) h
  then map (fun kv => if String.eqb (fst kv) k then (k, v) else kv) h
  else (h ++ [(k, v)])%list.

(** A streamed answer: its status, the body as [Response::text()] reads it
    (used on the error path) and the body as [bytes_stream()] yields it. *)
Record stream_response := {
  sstatus : Z;
  stext : result string reqwest_error;
  schunks : list (result string reqwest_error) }.

Definition stream_endpoint :=
  string -> header_map -> GptRequest.t -> result stream_response reqwest_error.

(** [GptClient::ask_stream]: on success, the items the spawned task sends
    into the channel, in order. *)
Definition ask_stream (send : stream_endpoint) (self : GptClient.t) (message : string)
  : result (list Decoder.item) GptError :=
  match build_headers self with
  | Err e => Err e
  | Ok headers =>
      let headers := header_insert "accept" "text/event-stream" headers in
      let request := with_stream (build_request self message) true in
      match send (GptClient.api_url self) headers request with
      | Err e => Err (RequestError e)
      | Ok response =>
          if negb (is_success (sstatus response))
          then handle_error_response (sstatus response) (stext response)
          else Ok (Decoder.decode (schunks response))
      end
  end.

(** ** Sequences of builder calls *)

(** The field a [GptConfigBuilder] setter writes. *)
Inductive config_field :=
| FTemperature | FMaxTokens | FTopP | FFrequencyPenalty | FPresencePenalty | FStop.

Definition setter_field (s : GptConfigBuilder.setter) : config_field :=
  match s with
  | GptConfigBuilder.Temperature _ => FTemperature
  | GptConfigBuilder.MaxTokens _ => FMaxTokens
  | GptConfigBuilder.TopP _ => FTopP
  | GptConfigBuilder.FrequencyPenalty _ => FFrequencyPenalty
  | GptConfigBuilder.PresencePenalty _ => FPresencePenalty
  | GptConfigBuilder.Stop _ => FStop
  end.

(** [x] saturated to [[lo, hi]] in the order of the reals: below [lo] (or
    minus infinity) gives [lo], above [hi] (or plus infinity) gives [hi], NaN
    stays NaN. *)
Definition saturate (lo hi : Q) (x : f32) : f32 :=
  match x with
  | Fin q =>
      if negb (Qle_bool lo q) then Fin lo
      else if negb (Qle_bool q hi) then Fin hi
      else Fin q
  | PosInf => Fin hi
  | NegInf => Fin lo
  | NaN => NaN
  end.

(** The argument of the last setter call picked by [f], [init] when there is
    none. *)
Fixpoint last_setter_arg {A} (f : GptConfigBuilder.setter -> option A)
  (calls : list GptConfigBuilder.setter) (init : option A) : option A :=
  match calls with
  | [] => init
  | c :: r => last_setter_arg f r (match f c with Some a => Some a | None => init end)
  end.

Definition temperature_arg (s : GptConfigBuilder.setter) : option f32 :=
  match s with GptConfigBuilder.Temperature x => Some x | _ => None end.
Definition top_p_arg (s : GptConfigBuilder.setter) : option f32 :=
  match s with GptConfigBuilder.TopP x => Some x | _ => None end.
Definition frequency_penalty_arg (s : GptConfigBuilder.setter) : option f32 :=
  match s with GptConfigBuilder.FrequencyPenalty x => Some x | _ => None end.
Definition presence_penalty_arg (s : GptConfigBuilder.setter) : option f32 :=
  match s with GptConfigBuilder.PresencePenalty x => Some x | _ => None end.

(** A call of one of the [GptClientBuilder] setters. *)
Inductive client_call :=
| ApiUrl (url : string)
| ApiKey (key : string)
| Config (c : GptConfig.t).

Definition apply_client_call (b : GptClientBuilder.t) (c : client_call) : GptClientBuilder.t :=
  match c with
  | ApiUrl url => GptClientBuilder.set_api_url b url
  | ApiKey key => GptClientBuilder.set_api_key b key
  | Config cfg => GptClientBuilder.set_config b cfg
  end.

(** [GptClient::builder().c1(..).c2(..)...build()] *)
Definition run_client (calls : list client_call) : result GptClient.t GptError :=
  GptClientBuilder.build (fold_left apply_client_call calls GptClientBuilder.default).

(** The argument of the last call picked by [f], [init] when there is none. *)
Fixpoint last_arg {A} (f : client_call -> option A) (calls : list client_call) (init : option A)
  : option A :=
  match calls with
  | [] => init
  | c :: r => last_arg f r (match f c with Some a => Some a | None => init end)
  end.

Definition url_arg (c : client_call) : option string :=
  match c with ApiUrl u => Some u | _ => None end.
Definition key_arg (c : client_call) : option string :=
  match c with ApiKey k => Some k | _ => None end.
Definition config_arg (c : client_call) : option GptConfig.t :=
  match c with Config cfg => Some cfg | _ => None end.

(** ** The command-line program (src/src/main.rs) *)

Module Main.
Import Str.

(** [char::is_whitespace] (Unicode White_Space), by its UTF-8 encodings:
    one byte (U+0009..U+000D, U+0020), two bytes (U+0085, U+00A0) and three
    bytes (U+1680, U+2000..U+200A, U+2028, U+2029, U+202F, U+205F, U+3000). *)
Definition ws1 (c : ascii) : bool :=
  let n := byte c in ((9 <=? n) && (n <=? 13)) || (n =? 32).

Definition ws2 (c1 c2 : ascii) : bool :=
  (byte c1 =? 194) && ((byte c2 =? 133) || (byte c2 =? 160)).

Definition ws3 (c1 c2 c3 : ascii) : bool :=
  let a := byte c1 in let b := byte c2 in let c := byte c3 in
  ((a =? 225) && (b =? 154) && (c =? 128)) ||
  ((a =? 226) && (b =? 128) &&
     (((128 <=? c) && (c <=? 138)) || (c =? 168) || (c =? 169) || (c =? 175))) ||
  ((a =? 226) && (b =? 129) && (c =? 159)) ||
  ((a =? 227) && (b =? 128) && (c =? 128)).

(** [trim_start]: leading white space characters removed. *)
Fixpoint trim_start (s : string) : string :=
  match s with
  | EmptyString => EmptyString
  | String c1 r1 =>
      if ws1 c1 then trim_start r1 else
      match r1 with
      | String c2 r2 =>
          if ws2 c1 c2 then trim_start r2 else
          match r2 with
          | String c3 r3 => if ws3 c1 c2 c3 then trim_start r3 else s
          | EmptyString => s
          end
      | EmptyString => s
      end
  end.

(** The same on a reversed string (a character's last byte comes first). *)
Fixpoint trim_start_rev (s : string) : string :=
  match s with
  | EmptyString => EmptyString
  | String c1 r1 =>
      if ws1 c1 then trim_start_rev r1 else
      match r1 with
      | String c2 r2 =>
          if ws2 c2 c1 then trim_start_rev r2 else
          match r2 with
          | String c3 r3 => if ws3 c3 c2 c1 then trim_start_rev r3 else s
          | EmptyString => s
          end
      | EmptyString => s
      end
  end.

Definition rev_str (s : string) : string :=
  string_of_list_ascii (rev (list_ascii_of_string s)).

(** [str::trim] on a UTF-8 string. *)
Definition trim (s : string) : string :=
  rev_str (trim_start_rev (rev_str (trim_start s))).

(** [BufRead::read_line]: the bytes up to and including the first newline,
    or up to the end of the input; an empty line at the end of the input. *)
Fixpoint read_line (s : string) : string * string :=
  match s with
  | EmptyString => (EmptyString, EmptyString)
  | String c r =>
      if Ascii.eqb c nl then (String c EmptyString, r)
      else let '(l, r') := read_line r in (String c l, r')
  end.

(** [get_user_input]: the line read, trimmed, and the input left; [Err]
    when the line is not UTF-8 ([read_line] fails with [InvalidData]). *)
Definition get_user_input (stdin : string) : result (string * string) unit :=
  let '(line, rest) := read_line stdin in
  if utf8_valid line then Ok (trim line, rest) else Err tt.

(** What one turn of the loop in [main] does. *)
Inductive event :=
| Goodbye
| Toggled (streaming_mode : bool)
| Ask (message : string)
| AskStream (message : string)
| InputFailed.

(** The [loop] of [main], [fuel] turns of it, with [str::to_lowercase]
    given as [lower]. A request's outcome is printed and does not change
    the course of the loop. *)
Fixpoint main_loop (lower : string -> string) (fuel : nat) (streaming_mode : bool)
  (stdin : string) : list event :=
  match fuel with
  | O => []
  | S f =>
      match get_user_input stdin with
      | Err _ => [InputFailed]
      | Ok (input, rest) =>
          let l := lower input in
          if String.eqb l "exit" then [Goodbye]
          else if String.eqb l "/stream" then
            Toggled (negb streaming_mode) :: main_loop lower f (negb streaming_mode) rest
          else
            (if streaming_mode then AskStream input else Ask input)
              :: main_loop lower f streaming_mode rest
      end
  end.

(** [str::to_lowercase] on ASCII text. *)
Definition is_ascii_str (s : string) : bool :=
  forallb (fun c => byte c <? 128) (list_ascii_of_string s).

Definition ascii_lower (s : string) : string :=
  string_of_list_ascii
    (map (fun c => if in_range c 65 90 then ascii_of_nat (byte c + 32) else c)
         (list_ascii_of_string s)).

(** A blank: space or tab. *)
Definition is_blank (c : ascii) : bool := Ascii.eqb c " " || Ascii.eqb c "009".

(** A non-empty line of ASCII text without newline, that neither starts nor
    ends with white space. *)
Definition plain_text (w : string) : bool :=
  match list_ascii_of_string w with
  | [] => false
  | c :: _ =>
      is_ascii_str w && forallb (fun d => negb (Ascii.eqb d nl)) (list_ascii_of_string w) &&
      negb (ws1 c) && negb (ws1 (last (list_ascii_of_string w) c))
  end.


End Main.

(** Ranges kept by the setters of the configuration builder. *)
Definition opt_within (o : option f32) (lo hi : Q) : Prop :=
  match o with Some x => f32_within x lo hi | None => True end.

Definition builder_ok (b : GptConfigBuilder.t) : Prop :=
  opt_within (GptConfigBuilder.temperature b) 0 2 /\
  opt_within (GptConfigBuilder.top_p b) 0 1 /\
  opt_within (GptConfigBuilder.frequency_penalty b) (-2) 2 /\
  opt_within (GptConfigBuilder.presence_penalty b) (-2) 2.

(** * Properties *)

(** ** Configuration *)

Lemma qle_bool_true (a b : Q) : Qle_bool a b = true -> (a <= b)%Q.
Proof. apply Qle_bool_iff. Qed.

Lemma qle_bool_false (a b : Q) : Qle_bool a b = false -> (b <= a)%Q.
Proof.
  intros H. apply Qlt_le_weak, Qnot_le_lt. intros H'.
  apply Qle_bool_iff in H'. congruence.
Qed.

Lemma clamp_within (x : f32) (lo hi : Q) :
  is_nan x = false -> (lo <= hi)%Q -> f32_within (f32_clamp x (Fin lo) (Fin hi)) lo hi.
Proof.
  intros Hn Hle. destruct x as [q| | |]; try discriminate; unfold f32_clamp, f32_lt.
  - destruct (Qle_bool lo q) eqn:E1; simpl.
    + destruct (Qle_bool q hi) eqn:E2; simpl.
      * split; [apply qle_bool_true; assumption | apply qle_bool_true; assumption].
      * split; [assumption | apply Qle_refl].
    + apply qle_bool_false in E1.
      destruct (Qle_bool lo hi) eqn:E2; simpl.
      * split; [apply Qle_refl | assumption].
      * split; [assumption | apply Qle_refl].
  - simpl. split; [assumption | apply Qle_refl].
  - simpl. destruct (Qle_bool lo hi) eqn:E2; simpl.
    + split; [apply Qle_refl | assumption].
    + split; [assumption | apply Qle_refl].
Qed.

Lemma fold_setters (calls : list GptConfigBuilder.setter) (b : GptConfigBuilder.t) :
  forallb GptConfigBuilder.no_nan_arg calls = true -> builder_ok b ->
  builder_ok (fold_left GptConfigBuilder.apply calls b) /\
  GptConfigBuilder.max_tokens (fold_left GptConfigBuilder.apply calls b) =
  GptConfigBuilder.last_max_tokens calls (GptConfigBuilder.max_tokens b).
Proof.
  revert b. induction calls as [|s calls IH]; intros b Hall Hb.
  - split; [exact Hb | reflexivity].
  - simpl in Hall. apply andb_true_iff in Hall as [Hs Hall].
    assert (Hb' : builder_ok (GptConfigBuilder.apply b s)).
    { destruct Hb as (Ht & Hp & Hf & Hq).
      destruct s as [x|n|x|x|x|l]; simpl in Hs |- *;
        try (apply negb_true_iff in Hs);
        unfold builder_ok; simpl; repeat split; try assumption;
        apply clamp_within; try assumption; unfold Qle; simpl; lia. }
    simpl. destruct (IH _ Hall Hb') as [H1 H2].
    split; [exact H1 |]. rewrite H2. destruct s; reflexivity.
Qed.

Lemma clamp_saturate (lo hi : Q) (x : f32) :
  Qle_bool lo hi = true -> f32_clamp x (Fin lo) (Fin hi) = saturate lo hi x.
Proof.
  intros Hle. unfold f32_clamp, saturate.
  destruct x as [q| | |]; cbn [f32_lt]; [| reflexivity | rewrite Hle; reflexivity | reflexivity].
  destruct (Qle_bool lo q) eqn:E1; cbn [negb].
  - reflexivity.
  - cbn [f32_lt]. rewrite Hle. reflexivity.
Qed.

Lemma fold_last_setter {A B : Type} (get : GptConfigBuilder.t -> option B)
  (f : GptConfigBuilder.setter -> option A) (g : A -> B)
  (Hstep : forall b c, get (GptConfigBuilder.apply b c) =
                       match f c with Some a => Some (g a) | None => get b end) :
  forall calls b init, get b = option_map g init ->
  get (fold_left GptConfigBuilder.apply calls b) = option_map g (last_setter_arg f calls init).
Proof.
  induction calls as [| c calls IH]; intros b init Hb; [exact Hb |].
  simpl. apply IH. rewrite Hstep. destruct (f c); [reflexivity | exact Hb].
Qed.

Lemma fold_max_tokens (calls : list GptConfigBuilder.setter) (b : GptConfigBuilder.t) :
  GptConfigBuilder.max_tokens (fold_left GptConfigBuilder.apply calls b) =
  GptConfigBuilder.last_max_tokens calls (GptConfigBuilder.max_tokens b).
Proof.
  revert b. induction calls as [| c calls IH]; intros b; [reflexivity |].
  simpl. rewrite IH. destruct c; reflexivity.
Qed.

(** C2 (as amended): whatever sequence of setter calls builds the
    configuration, each clamped field is the argument of the last call on
    it saturated to the field's range (an out-of-range or infinite value
    becomes the nearest bound, NaN stays NaN), or its default when no call
    was made; so as long as no call was given NaN, each [f32] field lies in
    its range. [max_tokens] is not clamped: it is the argument of the last
    [max_tokens] call, or 800. *)
Theorem config_fields_in_range (calls : list GptConfigBuilder.setter) :
  GptConfig.temperature (GptConfigBuilder.run calls) =
    (match last_setter_arg temperature_arg calls None with
     | Some x => saturate 0 2 x | None => f32_0_7 end) /\
  GptConfig.top_p (GptConfigBuilder.run calls) =
    (match last_setter_arg top_p_arg calls None with
     | Some x => saturate 0 1 x | None => f32_0_95 end) /\
  GptConfig.frequency_penalty (GptConfigBuilder.run calls) =
    (match last_setter_arg frequency_penalty_arg calls None with
     | Some x => saturate (-2) 2 x | None => f32_of_Z 0 end) /\
  GptConfig.presence_penalty (GptConfigBuilder.run calls) =
    (match last_setter_arg presence_penalty_arg calls None with
     | Some x => saturate (-2) 2 x | None => f32_of_Z 0 end) /\
  GptConfig.max_tokens (GptConfigBuilder.run calls) =
    (match GptConfigBuilder.last_max_tokens calls None with
     | Some n => n | None => 800%Z end) /\
  (forallb GptConfigBuilder.no_nan_arg calls = true ->
   f32_within (GptConfig.temperature (GptConfigBuilder.run calls)) 0 2 /\
   f32_within (GptConfig.top_p (GptConfigBuilder.run calls)) 0 1 /\
   f32_within (GptConfig.frequency_penalty (GptConfigBuilder.run calls)) (-2) 2 /\
   f32_within (GptConfig.presence_penalty (GptConfigBuilder.run calls)) (-2) 2).
Proof.
  pose proof (fold_last_setter GptConfigBuilder.temperature temperature_arg (saturate 0 2)
    ltac:(intros [] []; cbn; try reflexivity; unfold f32_of_Z; rewrite clamp_saturate by reflexivity; reflexivity)
    calls GptConfigBuilder.default None eq_refl) as Ht.
  pose proof (fold_last_setter GptConfigBuilder.top_p top_p_arg (saturate 0 1)
    ltac:(intros [] []; cbn; try reflexivity; unfold f32_of_Z; rewrite clamp_saturate by reflexivity; reflexivity)
    calls GptConfigBuilder.default None eq_refl) as Hp.
  pose proof (fold_last_setter GptConfigBuilder.frequency_penalty frequency_penalty_arg
    (saturate (-2) 2)
    ltac:(intros [] []; cbn; try reflexivity; unfold f32_of_Z; rewrite clamp_saturate by reflexivity; reflexivity)
    calls GptConfigBuilder.default None eq_refl) as Hf.
  pose proof (fold_last_setter GptConfigBuilder.presence_penalty presence_penalty_arg
    (saturate (-2) 2)
    ltac:(intros [] []; cbn; try reflexivity; unfold f32_of_Z; rewrite clamp_saturate by reflexivity; reflexivity)
    calls GptConfigBuilder.default None eq_refl) as Hq.
  pose proof (fold_max_tokens calls GptConfigBuilder.default) as Hm.
  unfold GptConfigBuilder.run, GptConfigBuilder.build. cbn [GptConfig.temperature
    GptConfig.top_p GptConfig.frequency_penalty GptConfig.presence_penalty
    GptConfig.max_tokens].
  rewrite Ht, Hp, Hf, Hq, Hm.
  split; [destruct (last_setter_arg temperature_arg calls None); reflexivity |].
  split; [destruct (last_setter_arg top_p_arg calls None); reflexivity |].
  split; [destruct (last_setter_arg frequency_penalty_arg calls None); reflexivity |].
  split; [destruct (last_setter_arg presence_penalty_arg calls None); reflexivity |].
  split; [reflexivity |].
  intros Hnan.
  destruct (fold_setters calls GptConfigBuilder.default Hnan) as [(Ht' & Hp' & Hf' & Hq') _].
  { unfold builder_ok; simpl; tauto. }
  rewrite <- Ht, <- Hp, <- Hf, <- Hq.
  destruct (GptConfigBuilder.temperature _), (GptConfigBuilder.top_p _),
    (GptConfigBuilder.frequency_penalty _), (GptConfigBuilder.presence_penalty _);
    simpl in *; repeat split; try assumption;
    unfold Qle; simpl; lia.
Qed.

(** C2 witness: temperature 5, top_p -1 (saturated to 2 and 0), max_tokens 1000. *)
Lemma config_fields_in_range_witness :
  forallb GptConfigBuilder.no_nan_arg
    [GptConfigBuilder.Temperature (f32_of_Z 5); GptConfigBuilder.TopP (f32_of_Z (-1));
     GptConfigBuilder.MaxTokens 1000] = true /\
  GptConfig.temperature (GptConfigBuilder.run
    [GptConfigBuilder.Temperature (f32_of_Z 5); GptConfigBuilder.TopP (f32_of_Z (-1));
     GptConfigBuilder.MaxTokens 1000]) = f32_of_Z 2 /\
  GptConfig.top_p (GptConfigBuilder.run
    [GptConfigBuilder.Temperature (f32_of_Z 5); GptConfigBuilder.TopP (f32_of_Z (-1));
     GptConfigBuilder.MaxTokens 1000]) = f32_of_Z 0 /\
  f32_within (GptConfig.temperature (GptConfigBuilder.run
    [GptConfigBuilder.Temperature (f32_of_Z 5); GptConfigBuilder.TopP (f32_of_Z (-1));
     GptConfigBuilder.MaxTokens 1000])) 0 2.
Proof.
  pose proof (config_fields_in_range
    [GptConfigBuilder.Temperature (f32_of_Z 5); GptConfigBuilder.TopP (f32_of_Z (-1));
     GptConfigBuilder.MaxTokens 1000]) as (Ht & Hp & _ & _ & _ & Hin).
  split; [reflexivity |].
  split; [rewrite Ht; reflexivity |].
  split; [rewrite Hp; reflexivity |].
  exact (proj1 (Hin eq_refl)).
Defined.

(** C2 refuted: [max_tokens(0)] builds a configuration whose [max_tokens] is
    0, not a positive integer, and [temperature(NaN)] stores NaN, which lies
    in no range. *)
Lemma config_max_tokens_zero_kept :
  GptConfig.max_tokens (GptConfigBuilder.run [GptConfigBuilder.MaxTokens 0]) = 0%Z /\
  ~ (0 < GptConfig.max_tokens (GptConfigBuilder.run [GptConfigBuilder.MaxTokens 0]))%Z /\
  GptConfig.temperature (GptConfigBuilder.run [GptConfigBuilder.Temperature NaN]) = NaN /\
  ~ f32_within (GptConfig.temperature (GptConfigBuilder.run [GptConfigBuilder.Temperature NaN])) 0 2.
Proof.
  split; [reflexivity |]. split; [simpl; lia |]. split; [reflexivity |].
  simpl. tauto.
Qed.

(** ** Client construction *)

(** C10: a builder given a URL and a key but no configuration builds a
    client with [GptConfig::default()], and every request built by that client
    (streaming or not) carries temperature 0.7, max_tokens 800, top_p 0.95,
    both penalties 0 and no stop sequences. *)
Theorem client_default_config (url key : string) :
  GptClientBuilder.build (GptClientBuilder.mk (Some url) (Some key) None) =
    Ok (GptClient.mk url key GptConfig.default) /\
  GptClient.config (GptClient.mk url key GptConfig.default) = GptConfig.default /\
  forall (message : string) (stream : bool),
    let r := with_stream (build_request (GptClient.mk url key GptConfig.default) message) stream in
    GptRequest.temperature r = f32_0_7 /\ GptRequest.max_tokens r = 800%Z /\
    GptRequest.top_p r = f32_0_95 /\ GptRequest.frequency_penalty r = f32_of_Z 0 /\
    GptRequest.presence_penalty r = f32_of_Z 0 /\ GptRequest.stop r = None.
Proof.
  split; [reflexivity |]. split; [reflexivity |].
  intros message stream. simpl. repeat split.
Qed.

(** ** Request serialization *)

(** C9: a request without stop sequences serializes to an object with no
    [stop] key; with stop sequences ["x"; "y"] its [stop] field is the array
    of the two strings, in order. *)
Theorem request_stop_serialization :
  (forall r : GptRequest.t, GptRequest.stop r = None ->
     ~ In "stop" (Serialize.keys (Serialize.gpt_request r)) /\
     Serialize.lookup "stop" (Serialize.gpt_request r) = None) /\
  (forall r : GptRequest.t, GptRequest.stop r = Some ["x"; "y"] ->
     Serialize.lookup "stop" (Serialize.gpt_request r) =
       Some (Json.JArr [Json.JStr "x"; Json.JStr "y"])).
Proof.
  split.
  - intros [m t n p f q s b] H. simpl in H. subst s. simpl. split.
    + intros Hin. repeat destruct Hin as [Hin | Hin]; try discriminate; exact Hin.
    + reflexivity.
  - intros [m t n p f q s b] H. simpl in H. subst s. reflexivity.
Qed.

(** ** [ask] *)



(** C1 refuted: with the body of the scenario, whose choice has no [index],
    the client of main.rs gets from [ask "hi"] a [ParseError] carrying the
    decode error of that body, not "hello": [Choice.index] is a required
    [i32], so [GptResponse] does not deserialize from it. *)
Lemma ask_hello_without_index :
  from_str_GptResponse Scenario.body_spec = Err tt /\
  GptClientBuilder.build (Scenario.main_builder "https://example.invalid/chat" "key")
    = Ok (GptClient.mk "https://example.invalid/chat" "key" Scenario.main_config) /\
  ask (Scenario.respond 200 Scenario.body_spec)
      (GptClient.mk "https://example.invalid/chat" "key" Scenario.main_config) "hi"
    = Err (ParseError (JsonBodyError Scenario.body_spec)) /\
  ask (Scenario.respond 200 Scenario.body_spec)
      (GptClient.mk "https://example.invalid/chat" "key" Scenario.main_config) "hi"
    <> Ok "hello".
Proof.
  split; [vm_compute; reflexivity |].
  split; [reflexivity |].
  split; [vm_compute; reflexivity |].
  vm_compute. discriminate.
Qed.

(** C1 (as amended): for the client built with temperature 0.8 and
    max_tokens 1000 (and any URL and valid key), [ask "hi"] against an
    endpoint answering with any 2xx status returns exactly "hello" when the
    body's choice carries its [index], and fails with a [ParseError]
    carrying the decode error of the body of the scenario, which lacks it
    and does not deserialize. *)
Theorem ask_hello_scenario (url key : string) (code : Z)
  (Hkey : header_value_ok key = true) (H2xx : is_success code = true) :
  GptClientBuilder.build (Scenario.main_builder url key)
    = Ok (GptClient.mk url key Scenario.main_config) /\
  ask (Scenario.respond code Scenario.body_indexed)
      (GptClient.mk url key Scenario.main_config) "hi" = Ok "hello" /\
  from_str_GptResponse Scenario.body_spec = Err tt /\
  ask (Scenario.respond code Scenario.body_spec)
      (GptClient.mk url key Scenario.main_config) "hi"
    = Err (ParseError (JsonBodyError Scenario.body_spec)).
Proof.
  split; [reflexivity |].
  unfold ask, build_headers, Scenario.respond. simpl GptClient.api_key.
  rewrite Hkey. simpl. rewrite H2xx. simpl.
  repeat split; vm_compute; reflexivity.
Qed.

Lemma ask_hello_scenario_witness :
  header_value_ok "key" = true /\ is_success 200 = true /\
  ask (Scenario.respond 200 Scenario.body_indexed)
      (GptClient.mk "https://example.invalid/chat" "key" Scenario.main_config) "hi"
    = Ok "hello".
Proof.
  split; [reflexivity |]. split; [reflexivity |].
  apply (ask_hello_scenario "https://example.invalid/chat" "key" 200); reflexivity.
Defined.

(** ** Byte strings *)

Section ByteStrings.
Import Str.

Lemma str_app_assoc (a b c : string) : (a ++ b) ++ c = a ++ (b ++ c).
Proof. induction a as [|x a IH]; simpl; [reflexivity | now rewrite IH]. Qed.


Lemma str_length_app (a b : string) :
  String.length (a ++ b) = String.length a + String.length b.
Proof. induction a as [|x a IH]; simpl; [reflexivity | now rewrite IH]. Qed.

Lemma take_app_le (n : nat) (a b : string) :
  n <= String.length a -> take n (a ++ b) = take n a.
Proof.
  revert n. induction a as [|x a IH]; intros n Hn; simpl in *.
  - replace n with 0 by lia. reflexivity.
  - destruct n; simpl; [reflexivity | rewrite IH; [reflexivity | lia]].
Qed.

Lemma drop_app_le (n : nat) (a b : string) :
  n <= String.length a -> drop n (a ++ b) = drop n a ++ b.
Proof.
  revert n. induction a as [|x a IH]; intros n Hn; simpl in *.
  - replace n with 0 by lia. reflexivity.
  - destruct n; simpl; [reflexivity | apply IH; lia].
Qed.

Lemma take_length_app (a b : string) : take (String.length a) (a ++ b) = a.
Proof. induction a as [|x a IH]; simpl; [reflexivity | now rewrite IH]. Qed.

Lemma drop_length_app (a b : string) : drop (String.length a) (a ++ b) = b.
Proof. induction a as [|x a IH]; simpl; [reflexivity | exact IH]. Qed.

Lemma drop_length (n : nat) (s : string) :
  String.length (drop n s) = String.length s - n.
Proof.
  revert n. induction s as [|x s IH]; intros n; destruct n; simpl; auto.
Qed.


Lemma prefix_app (p x : string) : String.prefix p (p ++ x) = true.
Proof.
  induction p as [|c p IH]; simpl; [destruct x; reflexivity |].
  destruct (ascii_dec c c) as [_ | n]; [exact IH | contradiction].
Qed.


(** [find_nn] *)

Lemma find_nn_cons (c : ascii) (s : string) :
  c <> nl -> find_nn (String c s) = option_map S (find_nn s).
Proof.
  intros Hc. destruct s as [|d s]; [reflexivity |].
  change (find_nn (String c (String d s)))
    with (if Ascii.eqb c nl && Ascii.eqb d nl then Some 0
          else option_map S (find_nn (String d s))).
  destruct (Ascii.eqb c nl) eqn:E; [apply Ascii.eqb_eq in E; contradiction | reflexivity].
Qed.

Lemma find_nn_bound (s : string) (k : nat) :
  find_nn s = Some k -> k + 2 <= String.length s.
Proof.
  revert k. induction s as [|a t IH]; intros k H; [discriminate |].
  destruct t as [|b t']; [discriminate |].
  change (find_nn (String a (String b t')))
    with (if Ascii.eqb a nl && Ascii.eqb b nl then Some 0
          else option_map S (find_nn (String b t'))) in H.
  destruct (Ascii.eqb a nl && Ascii.eqb b nl).
  - injection H as <-. simpl. lia.
  - destruct (find_nn (String b t')) as [k'|] eqn:E; simpl in H; [| discriminate].
    injection H as <-. specialize (IH k' eq_refl). simpl in *. lia.
Qed.

Lemma find_nn_app_some (r s : string) (k : nat) :
  find_nn r = Some k -> find_nn (r ++ s) = Some k.
Proof.
  revert k. induction r as [|a t IH]; intros k H; [discriminate |].
  destruct t as [|b t']; [discriminate |].
  change (find_nn (String a (String b t')))
    with (if Ascii.eqb a nl && Ascii.eqb b nl then Some 0
          else option_map S (find_nn (String b t'))) in H.
  change (find_nn (String a (String b t') ++ s))
    with (if Ascii.eqb a nl && Ascii.eqb b nl then Some 0
          else option_map S (find_nn (String b t' ++ s))).
  destruct (Ascii.eqb a nl && Ascii.eqb b nl); [exact H |].
  destruct (find_nn (String b t')) as [k'|] eqn:E; simpl in H; [| discriminate].
  injection H as <-. rewrite (IH k' eq_refl). reflexivity.
Qed.

Lemma find_nn_first (a b : string) :
  find_nn (a ++ String nl EmptyString) = None ->
  find_nn (a ++ String nl (String nl b)) = Some (String.length a).
Proof.
  induction a as [|c a IH]; intros H; [reflexivity |].
  destruct a as [|d a].
  - simpl in H |- *.
    destruct (Ascii.eqb c nl); simpl in *; [discriminate | reflexivity].
  - change (find_nn (String c (String d a) ++ String nl EmptyString))
      with (if Ascii.eqb c nl && Ascii.eqb d nl then Some 0
            else option_map S (find_nn (String d a ++ String nl EmptyString))) in H.
    change (find_nn (String c (String d a) ++ String nl (String nl b)))
      with (if Ascii.eqb c nl && Ascii.eqb d nl then Some 0
            else option_map S (find_nn (String d a ++ String nl (String nl b)))).
    destruct (Ascii.eqb c nl && Ascii.eqb d nl); [discriminate |].
    destruct (find_nn (String d a ++ String nl EmptyString)); [discriminate |].
    rewrite (IH eq_refl). reflexivity.
Qed.

(** [String::from_utf8] accepts the concatenation of two accepted chunks. *)
Lemma utf8_valid_app (x y : string) :
  utf8_valid x = true -> utf8_valid y = true -> utf8_valid (x ++ y) = true.
Proof.
  intros Hx Hy. remember (String.length x) as n eqn:Hn.
  revert x Hn Hx. induction n as [n IH] using lt_wf_ind. intros x Hn Hx.
  destruct x as [|c r]; [exact Hy |].
  simpl in Hx |- *. destruct (lead_of c) as [| |lo hi|lo hi|].
  - apply (IH (String.length r)); [simpl in Hn; lia | reflexivity | exact Hx].
  - destruct r as [|c2 r2]; [discriminate |]. simpl.
    apply andb_true_iff in Hx as [H1 H2]. rewrite H1.
    apply (IH (String.length r2)); [simpl in Hn; lia | reflexivity | exact H2].
  - destruct r as [|c2 [|c3 r3]]; [discriminate | discriminate |]. simpl.
    apply andb_true_iff in Hx as [H1 H2]. rewrite H1.
    apply (IH (String.length r3)); [simpl in Hn; lia | reflexivity | exact H2].
  - destruct r as [|c2 [|c3 [|c4 r4]]]; [discriminate | discriminate | discriminate |].
    simpl. apply andb_true_iff in Hx as [H1 H2]. rewrite H1.
    apply (IH (String.length r4)); [simpl in Hn; lia | reflexivity | exact H2].
  - discriminate.
Qed.

End ByteStrings.

(** ** The inner loop *)

Section Drain.
Import Decoder.

Lemma drain_loop_fuel (n m : nat) (buf : string) :
  String.length buf <= n -> String.length buf <= m -> drain_loop n buf = drain_loop m buf.
Proof.
  revert m buf. induction n as [|n IH]; intros m buf Hn Hm.
  - destruct buf; simpl in Hn; [| lia]. destruct m; reflexivity.
  - destruct m as [|m].
    + destruct buf; simpl in Hm; [reflexivity | lia].
    + cbn [drain_loop]. destruct (Str.find_nn buf) as [pos|] eqn:E; [| reflexivity].
      pose proof (find_nn_bound _ _ E) as Hb.
      rewrite (IH m (Str.drop (pos + 2) buf)) by (rewrite drop_length; lia).
      reflexivity.
Qed.

Lemma hits_sentinel_loop_fuel (n m : nat) (buf : string) :
  String.length buf <= n -> String.length buf <= m ->
  hits_sentinel_loop n buf = hits_sentinel_loop m buf.
Proof.
  revert m buf. induction n as [|n IH]; intros m buf Hn Hm.
  - destruct buf; simpl in Hn; [| lia]. destruct m; reflexivity.
  - destruct m as [|m].
    + destruct buf; simpl in Hm; [reflexivity | lia].
    + cbn [hits_sentinel_loop]. destruct (Str.find_nn buf) as [pos|] eqn:E; [| reflexivity].
      pose proof (find_nn_bound _ _ E) as Hb.
      rewrite (IH m (Str.drop (pos + 2) buf)) by (rewrite drop_length; lia).
      reflexivity.
Qed.

(** The loop's unfolding equation, without fuel. *)
Lemma drain_eq (buf : string) :
  drain buf =
  match Str.find_nn buf with
  | None => ([], buf)
  | Some pos =>
      if Str.starts_with (Str.take pos buf) "data: " then
        if String.eqb (Str.trim_start_matches (Str.take pos buf) "data: ") "[DONE]"
        then ([], Str.drop (pos + 2) buf)
        else
          let '(sent, buffer) := drain (Str.drop (pos + 2) buf) in
          ((on_data (Str.trim_start_matches (Str.take pos buf) "data: ") ++ sent)%list, buffer)
      else drain (Str.drop (pos + 2) buf)
  end.
Proof.
  unfold drain at 1. destruct (Str.find_nn buf) as [pos|] eqn:E.
  - pose proof (find_nn_bound _ _ E) as Hb.
    destruct (String.length buf) as [|n] eqn:L; [lia |].
    cbn [drain_loop]. rewrite E. unfold drain.
    rewrite (drain_loop_fuel n (String.length (Str.drop (pos + 2) buf)))
      by (rewrite drop_length; lia).
    reflexivity.
  - destruct (String.length buf); cbn [drain_loop]; [reflexivity | rewrite E; reflexivity].
Qed.

Lemma hits_sentinel_eq (buf : string) :
  hits_sentinel buf =
  match Str.find_nn buf with
  | None => false
  | Some pos =>
      if Str.starts_with (Str.take pos buf) "data: " then
        if String.eqb (Str.trim_start_matches (Str.take pos buf) "data: ") "[DONE]"
        then true
        else hits_sentinel (Str.drop (pos + 2) buf)
      else hits_sentinel (Str.drop (pos + 2) buf)
  end.
Proof.
  unfold hits_sentinel at 1. destruct (Str.find_nn buf) as [pos|] eqn:E.
  - pose proof (find_nn_bound _ _ E) as Hb.
    destruct (String.length buf) as [|n] eqn:L; [lia |].
    cbn [hits_sentinel_loop]. rewrite E. unfold hits_sentinel.
    rewrite (hits_sentinel_loop_fuel n (String.length (Str.drop (pos + 2) buf)))
      by (rewrite drop_length; lia).
    reflexivity.
  - destruct (String.length buf); cbn [hits_sentinel_loop]; [reflexivity | rewrite E; reflexivity].
Qed.

Lemma drain_none (r : string) : Str.find_nn r = None -> drain r = ([], r).
Proof. intros H. rewrite drain_eq, H. reflexivity. Qed.

Lemma frame_app (p rest : string) :
  frame p ++ rest = ("data: " ++ p) ++ String Str.nl (String Str.nl rest).
Proof. unfold frame. rewrite !str_app_assoc. reflexivity. Qed.

Lemma frame_find (p rest : string) :
  sse_payload p -> Str.find_nn (frame p ++ rest) = Some (6 + String.length p).
Proof.
  intros Hs. rewrite frame_app, str_app_assoc.
  change ("data: " ++ ?x) with
    (String "d" (String "a" (String "t" (String "a" (String ":" (String " " x)))))).
  rewrite !find_nn_cons by discriminate.
  rewrite (find_nn_first p rest Hs). reflexivity.
Qed.

Lemma drop_past_nn (a b : string) :
  Str.drop (String.length a + 2) (a ++ String Str.nl (String Str.nl b)) = b.
Proof. induction a as [|c a IH]; simpl; [reflexivity | exact IH]. Qed.

Lemma trim_data (p : string) :
  String.prefix "data: " p = false -> Str.trim_start_matches ("data: " ++ p) "data: " = p.
Proof.
  intros H. unfold Str.trim_start_matches. rewrite str_length_app.
  change (String.length "data: " + String.length p)
    with (S (S (4 + String.length p))).
  cbn [Str.trim_start_matches_aux].
  rewrite prefix_app, drop_length_app, H, andb_false_r. reflexivity.
Qed.

End Drain.

(** ** Frames *)

Section Frames.
Import Decoder.

Lemma from_str_data_prefix (x : string) :
  exists e, from_str_GptResponse ("data: " ++ x) = Err e.
Proof. eexists. reflexivity. Qed.



Lemma drain_frame (p rest : string) :
  frame_ok p ->
  drain (frame p ++ rest) =
  let '(sent, buffer) := drain rest in ((on_data p ++ sent)%list, buffer).
Proof.
  intros (Hs & Hpre & Hdone).
  rewrite drain_eq, (frame_find p rest Hs), frame_app.
  replace (6 + String.length p) with (String.length ("data: " ++ p))
    by (rewrite str_length_app; reflexivity).
  rewrite take_length_app, drop_past_nn.
  unfold Str.starts_with. rewrite prefix_app, (trim_data p Hpre).
  apply String.eqb_neq in Hdone. rewrite Hdone. reflexivity.
Qed.







End Frames.

(** ** The stream decoder *)







(** A malformed payload (one that neither starts with the prefix again nor
    is the sentinel) sends one [ParseError] carrying serde_json's error for
    that payload, and the loop goes on. *)
Lemma drain_malformed_frame (p rest : string) (e : unit) :
  Decoder.frame_ok p -> from_str_GptResponse p = Err e ->
  Decoder.drain (Decoder.frame p ++ rest) =
  let '(sent, buffer) := Decoder.drain rest in
  (Err (ParseError (SerdeJsonError p)) :: sent, buffer).
Proof.
  intros Hok He. rewrite (drain_frame p rest Hok).
  unfold Decoder.on_data. rewrite He. reflexivity.
Qed.

(** C4, where the code slips: the prefix is stripped with
    [trim_start_matches], every repetition of it. The frame
    "data: data: [DONE]", whose payload "data: [DONE]" is not JSON, sends no
    [ParseError]: it is taken for the sentinel and the well-formed frame after
    it in the body is never sent. The frame "data: data: {..}" sends a
    fragment instead of a [ParseError]. *)
Theorem malformed_payload_read_as_sentinel :
  from_str_GptResponse "data: [DONE]" = Err tt /\
  Decoder.decode
    [Ok (Decoder.frame "data: [DONE]" ++ Decoder.frame (Scenario.delta_payload "next"))] = [] /\
  (exists e, from_str_GptResponse ("data: " ++ Scenario.delta_payload "x") = Err e) /\
  Decoder.decode
    [Ok (Decoder.frame ("data: " ++ Scenario.delta_payload "x") ++
         Decoder.frame (Scenario.delta_payload "next"))] = [Ok "x"; Ok "next"].
Proof.
  split; [vm_compute; reflexivity |].
  split; [vm_compute; reflexivity |].
  split; [apply from_str_data_prefix |].
  vm_compute. reflexivity.
Qed.

(** C5, where the code slips: [break] on the sentinel leaves the inner
    loop only. The task keeps reading chunks, and the frames after the
    sentinel, in a later chunk or left in the buffer, are decoded and sent. *)
Theorem fragments_after_sentinel :
  Decoder.decode
    [Ok (Decoder.frame "[DONE]"); Ok (Decoder.frame (Scenario.delta_payload "late"))]
    = [Ok "late"] /\
  Decoder.decode
    [Ok (Decoder.frame "[DONE]" ++ Decoder.frame (Scenario.delta_payload "late"));
     Ok EmptyString]
    = [Ok "late"].
Proof. split; vm_compute; reflexivity. Qed.

Section Split.
Import Str Decoder.

(** Draining [x ++ y], when [x] holds no sentinel frame, drains [x] first
    and then what is left of [x] followed by [y]. *)
Lemma drain_app (x y : string) :
  hits_sentinel x = false ->
  drain (x ++ y) =
  let '(e1, x1) := drain x in
  let '(e2, b2) := drain (x1 ++ y) in ((e1 ++ e2)%list, b2).
Proof.
  intros H. remember (String.length x) as n eqn:Hn. revert x Hn H.
  induction n as [n IH] using lt_wf_ind. intros x Hn H.
  rewrite hits_sentinel_eq in H. rewrite (drain_eq x).
  destruct (find_nn x) as [pos|] eqn:E.
  - pose proof (find_nn_bound _ _ E) as Hb.
    rewrite (drain_eq (x ++ y)), (find_nn_app_some x y pos E).
    rewrite (take_app_le pos x y) by lia. rewrite (drop_app_le (pos + 2) x y) by lia.
    assert (Hlt : String.length (drop (pos + 2) x) < n) by (rewrite drop_length; lia).
    destruct (starts_with (take pos x) "data: ").
    + destruct (String.eqb (trim_start_matches (take pos x) "data: ") "[DONE]");
        [discriminate |].
      rewrite (IH _ Hlt _ eq_refl H).
      destruct (drain (drop (pos + 2) x)) as [e1 x1].
      destruct (drain (x1 ++ y)) as [e2 b2].
      rewrite app_assoc. reflexivity.
    + rewrite (IH _ Hlt _ eq_refl H). reflexivity.
  - destruct (drain (x ++ y)); reflexivity.
Qed.

End Split.

(** C7: a "\n\n" terminator split across two chunks, its first newline
    ending one chunk and its second opening the next, is decoded as if the
    two chunks had come as one, provided each chunk is valid UTF-8 and the
    decoder has not met the sentinel in what it has read so far. *)
Theorem split_terminator_chunks (buf a b : string)
  (rest : list (result string reqwest_error))
  (H1 : Str.utf8_valid (a ++ String Str.nl EmptyString) = true)
  (H2 : Str.utf8_valid (String Str.nl b) = true)
  (Hs : Decoder.hits_sentinel (buf ++ a ++ String Str.nl EmptyString) = false) :
  Decoder.task buf (Ok (a ++ String Str.nl EmptyString) :: Ok (String Str.nl b) :: rest) =
  Decoder.task buf (Ok (a ++ String Str.nl (String Str.nl b)) :: rest).
Proof.
  cbn [Decoder.task]. unfold Decoder.on_chunk. rewrite H1, H2.
  replace (a ++ String Str.nl (String Str.nl b))
    with ((a ++ String Str.nl EmptyString) ++ String Str.nl b)
    by (rewrite str_app_assoc; reflexivity).
  rewrite (utf8_valid_app _ _ H1 H2).
  replace (buf ++ (a ++ String Str.nl EmptyString) ++ String Str.nl b)
    with ((buf ++ a ++ String Str.nl EmptyString) ++ String Str.nl b)
    by (rewrite str_app_assoc; reflexivity).
  rewrite (drain_app _ _ Hs).
  destruct (Decoder.drain (buf ++ a ++ String Str.nl EmptyString)) as [e1 x1].
  destruct (Decoder.drain (x1 ++ String Str.nl b)) as [e2 b2].
  rewrite app_assoc. reflexivity.
Qed.

Lemma split_terminator_chunks_witness :
  Decoder.task EmptyString
    [Ok (("data: " ++ Scenario.delta_payload "Hi") ++ String Str.nl EmptyString);
     Ok (String Str.nl (Decoder.frame (Scenario.delta_payload "!")))] =
  Decoder.task EmptyString
    [Ok (("data: " ++ Scenario.delta_payload "Hi") ++
         String Str.nl (String Str.nl (Decoder.frame (Scenario.delta_payload "!"))))] /\
  Decoder.task EmptyString
    [Ok (("data: " ++ Scenario.delta_payload "Hi") ++ String Str.nl EmptyString);
     Ok (String Str.nl (Decoder.frame (Scenario.delta_payload "!")))] = [Ok "Hi"; Ok "!"].
Proof.
  split.
  - apply (split_terminator_chunks EmptyString ("data: " ++ Scenario.delta_payload "Hi")
             (Decoder.frame (Scenario.delta_payload "!")) []);
      vm_compute; reflexivity.
  - vm_compute. reflexivity.
Defined.

(** * Further properties of the library and the program *)

(** ** Builders *)

Section BuilderCalls.
Import GptConfigBuilder.

Lemma fold_preserves {A} (get : GptConfigBuilder.t -> A) (F : config_field)
  (Hget : forall b s, setter_field s <> F -> get (apply b s) = get b) :
  forall calls b, Forall (fun s => setter_field s <> F) calls ->
  get (fold_left apply calls b) = get b.
Proof.
  induction calls as [|s calls IH]; intros b H; [reflexivity |].
  inversion H as [| ? ? Hs Hr]; subst. simpl. rewrite IH by exact Hr. apply Hget, Hs.
Qed.

Lemma apply_commute (b : GptConfigBuilder.t) (s s' : setter) :
  setter_field s <> setter_field s' -> apply (apply b s) s' = apply (apply b s') s.
Proof. intros H. destruct b, s, s'; simpl in H; try congruence; reflexivity. Qed.

Lemma apply_overwrite (b : GptConfigBuilder.t) (s s' : setter) :
  setter_field s = setter_field s' -> apply (apply b s) s' = apply b s'.
Proof. intros H. destruct b, s, s'; simpl in H; try discriminate; reflexivity. Qed.

Lemma fold_client_calls (calls : list client_call) (b : GptClientBuilder.t) :
  fold_left apply_client_call calls b =
  GptClientBuilder.mk (last_arg url_arg calls (GptClientBuilder.api_url b))
    (last_arg key_arg calls (GptClientBuilder.api_key b))
    (last_arg config_arg calls (GptClientBuilder.config b)).
Proof.
  revert b. induction calls as [|c calls IH]; intros b; [destruct b; reflexivity |].
  simpl. rewrite IH. destruct c, b; reflexivity.
Qed.

End BuilderCalls.

(** Each clamping setter of [GptConfigBuilder], called last, stores its
    argument saturated to the field's range: a value inside the range as
    given, a value below it (or minus infinity) as the lower bound, a value
    above it (or plus infinity) as the upper bound, and NaN as NaN. *)
Theorem setters_saturate (calls : list GptConfigBuilder.setter) (x : f32) :
  GptConfig.temperature
    (GptConfigBuilder.run (calls ++ [GptConfigBuilder.Temperature x])) = saturate 0 2 x /\
  GptConfig.top_p
    (GptConfigBuilder.run (calls ++ [GptConfigBuilder.TopP x])) = saturate 0 1 x /\
  GptConfig.frequency_penalty
    (GptConfigBuilder.run (calls ++ [GptConfigBuilder.FrequencyPenalty x])) = saturate (-2) 2 x /\
  GptConfig.presence_penalty
    (GptConfigBuilder.run (calls ++ [GptConfigBuilder.PresencePenalty x])) = saturate (-2) 2 x.
Proof.
  unfold GptConfigBuilder.run. rewrite !fold_left_app. cbn [fold_left].
  destruct (fold_left GptConfigBuilder.apply calls GptConfigBuilder.default).
  cbn. unfold f32_clamp, saturate, f32_of_Z, f32_lt.
  destruct x as [q| | |]; repeat split; try reflexivity.
  all: cbn; destruct (Qle_bool _ q) eqn:E1; cbn;
       [destruct (Qle_bool q _) eqn:E2; cbn; reflexivity | reflexivity].
Qed.

(** Two setter calls on different fields of [GptConfigBuilder] can be
    swapped without changing the built configuration. *)
Theorem setters_commute (l1 l2 : list GptConfigBuilder.setter) (s s' : GptConfigBuilder.setter)
  (Hdiff : setter_field s <> setter_field s') :
  GptConfigBuilder.run (l1 ++ s :: s' :: l2) = GptConfigBuilder.run (l1 ++ s' :: s :: l2).
Proof.
  unfold GptConfigBuilder.run. rewrite !fold_left_app. cbn [fold_left].
  rewrite (apply_commute _ s s' Hdiff). reflexivity.
Qed.

Lemma setters_commute_witness :
  GptConfigBuilder.run [GptConfigBuilder.Temperature (f32_of_Z 1); GptConfigBuilder.MaxTokens 5] =
  GptConfigBuilder.run [GptConfigBuilder.MaxTokens 5; GptConfigBuilder.Temperature (f32_of_Z 1)].
Proof.
  apply (setters_commute [] [] (GptConfigBuilder.Temperature (f32_of_Z 1))
           (GptConfigBuilder.MaxTokens 5)).
  discriminate.
Defined.

(** A second call of the same [GptConfigBuilder] setter overrides the
    first: only the last call on a field counts. *)
Theorem setters_last_wins (l1 l2 : list GptConfigBuilder.setter) (s s' : GptConfigBuilder.setter)
  (Hsame : setter_field s = setter_field s') :
  GptConfigBuilder.run (l1 ++ s :: s' :: l2) = GptConfigBuilder.run (l1 ++ s' :: l2).
Proof.
  unfold GptConfigBuilder.run. rewrite !fold_left_app. cbn [fold_left].
  rewrite (apply_overwrite _ s s' Hsame). reflexivity.
Qed.

Lemma setters_last_wins_witness :
  GptConfigBuilder.run [GptConfigBuilder.Stop ["a"]; GptConfigBuilder.Stop []] =
  GptConfigBuilder.run [GptConfigBuilder.Stop []].
Proof.
  apply (setters_last_wins [] [] (GptConfigBuilder.Stop ["a"]) (GptConfigBuilder.Stop [])).
  reflexivity.
Defined.

(** A field no setter call writes takes its value from
    [GptConfig::default()]: temperature 0.7, max_tokens 800, top_p 0.95,
    both penalties 0 and no stop sequences. *)
Theorem unset_fields_default (calls : list GptConfigBuilder.setter) :
  (Forall (fun s => setter_field s <> FTemperature) calls ->
   GptConfig.temperature (GptConfigBuilder.run calls) = f32_0_7) /\
  (Forall (fun s => setter_field s <> FMaxTokens) calls ->
   GptConfig.max_tokens (GptConfigBuilder.run calls) = 800%Z) /\
  (Forall (fun s => setter_field s <> FTopP) calls ->
   GptConfig.top_p (GptConfigBuilder.run calls) = f32_0_95) /\
  (Forall (fun s => setter_field s <> FFrequencyPenalty) calls ->
   GptConfig.frequency_penalty (GptConfigBuilder.run calls) = f32_of_Z 0) /\
  (Forall (fun s => setter_field s <> FPresencePenalty) calls ->
   GptConfig.presence_penalty (GptConfigBuilder.run calls) = f32_of_Z 0) /\
  (Forall (fun s => setter_field s <> FStop) calls ->
   GptConfig.stop (GptConfigBuilder.run calls) = None).
Proof.
  unfold GptConfigBuilder.run, GptConfigBuilder.build.
  repeat split; intros H.
  - cbn [GptConfig.temperature].
    rewrite (fold_preserves GptConfigBuilder.temperature FTemperature); [reflexivity | | exact H].
    intros [] []; simpl; congruence.
  - cbn [GptConfig.max_tokens].
    rewrite (fold_preserves GptConfigBuilder.max_tokens FMaxTokens); [reflexivity | | exact H].
    intros [] []; simpl; congruence.
  - cbn [GptConfig.top_p].
    rewrite (fold_preserves GptConfigBuilder.top_p FTopP); [reflexivity | | exact H].
    intros [] []; simpl; congruence.
  - cbn [GptConfig.frequency_penalty].
    rewrite (fold_preserves GptConfigBuilder.frequency_penalty FFrequencyPenalty);
      [reflexivity | | exact H].
    intros [] []; simpl; congruence.
  - cbn [GptConfig.presence_penalty].
    rewrite (fold_preserves GptConfigBuilder.presence_penalty FPresencePenalty);
      [reflexivity | | exact H].
    intros [] []; simpl; congruence.
  - cbn [GptConfig.stop].
    rewrite (fold_preserves GptConfigBuilder.stop FStop); [reflexivity | | exact H].
    intros [] []; simpl; congruence.
Qed.

(** The stop sequences of the last [stop(..)] call are kept as given,
    whatever calls on other fields follow it, and every request of a client
    with that configuration serializes them as a [stop] array in the same
    order, an empty list included (it is sent as [[]], not left out). *)
Theorem stop_kept_and_sent (calls later : list GptConfigBuilder.setter) (l : list string)
  (url key message : string) (stream : bool)
  (Hlater : Forall (fun s => setter_field s <> FStop) later) :
  GptConfig.stop (GptConfigBuilder.run (calls ++ GptConfigBuilder.Stop l :: later)) = Some l /\
  Serialize.lookup "stop"
    (Serialize.gpt_request
       (with_stream
          (build_request
             (GptClient.mk url key (GptConfigBuilder.run (calls ++ GptConfigBuilder.Stop l :: later)))
             message) stream))
  = Some (Json.JArr (map Json.JStr l)).
Proof.
  assert (Hs : GptConfig.stop (GptConfigBuilder.run (calls ++ GptConfigBuilder.Stop l :: later))
               = Some l).
  { unfold GptConfigBuilder.run, GptConfigBuilder.build. cbn [GptConfig.stop].
    rewrite fold_left_app. cbn [fold_left].
    rewrite (fold_preserves GptConfigBuilder.stop FStop);
      [| intros [] []; simpl; congruence | exact Hlater].
    destruct (fold_left GptConfigBuilder.apply calls GptConfigBuilder.default); reflexivity. }
  split; [exact Hs |].
  revert Hs. generalize (GptConfigBuilder.run (calls ++ GptConfigBuilder.Stop l :: later)).
  intros [] Hs. cbn [GptConfig.stop] in Hs. subst. reflexivity.
Qed.

(** X5 witness: [stop(["END"])] followed by [temperature(1)]. *)
Lemma stop_kept_and_sent_witness :
  Serialize.lookup "stop"
    (Serialize.gpt_request
       (with_stream
          (build_request
             (GptClient.mk "u" "k"
                (GptConfigBuilder.run ([] ++ GptConfigBuilder.Stop ["END"] ::
                                       [GptConfigBuilder.Temperature (f32_of_Z 1)])))
             "hi") false))
  = Some (Json.JArr [Json.JStr "END"]).
Proof.
  refine (proj2 (stop_kept_and_sent [] [GptConfigBuilder.Temperature (f32_of_Z 1)] ["END"]
                   "u" "k" "hi" false _)).
  constructor; [cbn; discriminate | constructor].
Defined.

(** [GptClientBuilder::build] after any sequence of setter calls: without
    an [api_url] call it fails with the configuration error "API URL is
    required" (whether a key was given or not); with a URL but no [api_key]
    call it fails with "API key is required"; otherwise the client has the
    last URL, the last key, and the last configuration given, or
    [GptConfig::default()]. *)
Theorem client_builder_calls (calls : list client_call) :
  run_client calls =
  match last_arg url_arg calls None, last_arg key_arg calls None with
  | None, _ => Err (ConfigError "API URL is required")
  | Some _, None => Err (ConfigError "API key is required")
  | Some url, Some key =>
      Ok (GptClient.mk url key
            (match last_arg config_arg calls None with
             | Some c => c
             | None => GptConfig.default
             end))
  end.
Proof.
  unfold run_client. rewrite fold_client_calls. reflexivity.
Qed.

(** ** Requests and answers *)

Section Answers.
Import Decoder.

Lemma header_value_bad (s : string) (c : ascii) :
  In c (list_ascii_of_string s) ->
  (Str.byte c < 32 /\ Str.byte c <> 9) \/ Str.byte c = 127 ->
  header_value_ok s = false.
Proof.
  intros Hin Hc. unfold header_value_ok. apply not_true_iff_false. intros Hall.
  rewrite forallb_forall in Hall. specialize (Hall c Hin).
  apply orb_true_iff in Hall as [Hall | Hall].
  - apply andb_true_iff in Hall as [A B]. apply Nat.leb_le in A.
    apply negb_true_iff, Nat.eqb_neq in B. lia.
  - apply Nat.eqb_eq in Hall. lia.
Qed.


End Answers.

(** An API key holding a control byte (below 32 other than tab, or 127,
    such as a trailing newline) is refused as a header value: [ask] and
    [ask_stream] fail with [HeaderError] whatever the endpoint would have
    answered, since no request is sent. *)
Theorem invalid_key_header_error (send : endpoint) (ssend : stream_endpoint)
  (self : GptClient.t) (message : string) (c : ascii)
  (Hin : In c (list_ascii_of_string (GptClient.api_key self)))
  (Hc : (Str.byte c < 32 /\ Str.byte c <> 9) \/ Str.byte c = 127) :
  ask send self message = Err HeaderError /\ ask_stream ssend self message = Err HeaderError.
Proof.
  pose proof (header_value_bad _ c Hin Hc) as H.
  unfold ask, ask_stream, build_headers. rewrite H. split; reflexivity.
Qed.

Lemma invalid_key_header_error_witness :
  ask (Scenario.respond 200 Scenario.body_indexed)
      (GptClient.mk "u" (String "k" (String Str.nl EmptyString)) GptConfig.default) "hi"
    = Err HeaderError /\
  ask_stream (fun _ _ _ => Ok {| sstatus := 200; stext := Ok EmptyString; schunks := [] |})
      (GptClient.mk "u" (String "k" (String Str.nl EmptyString)) GptConfig.default) "hi"
    = Err HeaderError.
Proof.
  apply (invalid_key_header_error _ _ _ _ Str.nl).
  - simpl. right. left. reflexivity.
  - left. split; [apply Nat.ltb_lt | apply Nat.eqb_neq]; reflexivity.
Defined.

(** What [ask] and [ask_stream] send: one POST to the client's URL with the
    headers [api-key] (the key as given) and [content-type:
    application/json], plus [accept: text/event-stream] for [ask_stream];
    the body holds one [user] message with the text as given, the
    configuration's values unchanged, and [stream] false for [ask], true for
    [ask_stream]. Their result depends on the endpoint only through its
    answer to that request. *)
Theorem requests_sent (send send' : endpoint) (ssend ssend' : stream_endpoint)
  (self : GptClient.t) (message : string) :
  let c := GptClient.config self in
  let req (stream : bool) :=
    GptRequest.mk [Message.mk "user" message] (GptConfig.temperature c)
      (GptConfig.max_tokens c) (GptConfig.top_p c) (GptConfig.frequency_penalty c)
      (GptConfig.presence_penalty c) (GptConfig.stop c) stream in
  let hs := [("api-key", GptClient.api_key self); ("content-type", "application/json")] in
  (send (GptClient.api_url self) hs (req false) = send' (GptClient.api_url self) hs (req false) ->
   ask send self message = ask send' self message) /\
  (ssend (GptClient.api_url self) (hs ++ [("accept", "text/event-stream")])%list (req true) =
   ssend' (GptClient.api_url self) (hs ++ [("accept", "text/event-stream")])%list (req true) ->
   ask_stream ssend self message = ask_stream ssend' self message).
Proof.
  cbv beta zeta. split; intros H.
  - unfold ask, build_headers.
    destruct (header_value_ok (GptClient.api_key self)); [| reflexivity].
    cbv beta zeta delta [with_stream build_request].
    cbn [GptRequest.messages GptRequest.temperature
         GptRequest.max_tokens GptRequest.top_p GptRequest.frequency_penalty
         GptRequest.presence_penalty GptRequest.stop].
    rewrite H. reflexivity.
  - unfold ask_stream, build_headers.
    destruct (header_value_ok (GptClient.api_key self)); [| reflexivity].
    change (header_insert "accept" "text/event-stream"
              [("api-key", GptClient.api_key self); ("content-type", "application/json")])
      with ([("api-key", GptClient.api_key self); ("content-type", "application/json")]
              ++ [("accept", "text/event-stream")])%list.
    cbv beta zeta delta [with_stream build_request].
    cbn [GptRequest.messages GptRequest.temperature
         GptRequest.max_tokens GptRequest.top_p GptRequest.frequency_penalty
         GptRequest.presence_penalty GptRequest.stop].
    rewrite H. reflexivity.
Qed.

(** An answer outside 200..299 makes [ask] and [ask_stream] fail alike with
    [ApiError] carrying the status and the text of the body, or "Unknown
    error" when the body cannot be read, even when the body is a well-formed
    response. A transport failure is returned as [RequestError] by both. A
    2xx answer to [ask] whose body cannot be read is a [ParseError] carrying
    the read error. *)
Theorem error_answers (send : endpoint) (ssend : stream_endpoint)
  (self : GptClient.t) (message : string)
  (Hkey : header_value_ok (GptClient.api_key self) = true) :
  (forall resp, (forall u h r, send u h r = Ok resp) -> is_success (status resp) = false ->
     ask send self message =
       Err (ApiError (status resp)
              (match text resp with Ok t => t | Err _ => "Unknown error" end))) /\
  (forall sresp, (forall u h r, ssend u h r = Ok sresp) -> is_success (sstatus sresp) = false ->
     ask_stream ssend self message =
       Err (ApiError (sstatus sresp)
              (match stext sresp with Ok t => t | Err _ => "Unknown error" end))) /\
  (forall e, (forall u h r, send u h r = Err e) -> ask send self message = Err (RequestError e)) /\
  (forall e, (forall u h r, ssend u h r = Err e) ->
     ask_stream ssend self message = Err (RequestError e)) /\
  (forall resp e, (forall u h r, send u h r = Ok resp) -> is_success (status resp) = true ->
     body resp = Err e -> ask send self message = Err (ParseError (BodyReadError e))).
Proof.
  unfold ask, ask_stream, build_headers. rewrite Hkey.
  split; [| split; [| split; [| split]]].
  - intros resp Hs Hst. rewrite Hs, Hst. reflexivity.
  - intros sresp Hs Hst. rewrite Hs, Hst. reflexivity.
  - intros e Hs. rewrite Hs. reflexivity.
  - intros e Hs. rewrite Hs. reflexivity.
  - intros resp e Hs Hst Hb. rewrite Hs, Hst, Hb. reflexivity.
Qed.

Lemma error_answers_witness :
  ask (fun _ _ _ => Ok {| status := 404; body := Ok Scenario.body_indexed;
                          text := Err (TransportFailure "reset") |})
      (GptClient.mk "u" "k" GptConfig.default) "hi"
    = Err (ApiError 404 "Unknown error") /\
  ask (Scenario.respond 404 Scenario.body_indexed)
      (GptClient.mk "u" "k" GptConfig.default) "hi"
    = Err (ApiError 404 Scenario.body_indexed).
Proof.
  split.
  - apply (proj1 (error_answers
                    (fun _ _ _ => Ok {| status := 404; body := Ok Scenario.body_indexed;
                                        text := Err (TransportFailure "reset") |})
                    (fun _ _ _ => Err (TransportFailure "x"))
                    (GptClient.mk "u" "k" GptConfig.default) "hi" eq_refl)
             {| status := 404; body := Ok Scenario.body_indexed;
                text := Err (TransportFailure "reset") |}).
    + intros u h r. reflexivity.
    + reflexivity.
  - apply (proj1 (error_answers (Scenario.respond 404 Scenario.body_indexed)
                    (fun _ _ _ => Err (TransportFailure "x"))
                    (GptClient.mk "u" "k" GptConfig.default) "hi" eq_refl)
             {| status := 404; body := Ok Scenario.body_indexed;
                text := Ok Scenario.body_indexed |}).
    + intros u h r. reflexivity.
    + reflexivity.
Defined.



Ltac nan_field get F later :=
  let H := fresh "H" in
  let b := fresh "b" in
  let Eb := fresh "Eb" in
  let Hb := fresh "Hb" in
  intros H; unfold GptConfigBuilder.run; rewrite fold_left_app; cbn [fold_left];
  match goal with
  | |- context [fold_left GptConfigBuilder.apply later ?b0] =>
      remember (fold_left GptConfigBuilder.apply later b0) as b eqn:Eb
  end;
  assert (Hb : get b = Some NaN)
    by (subst b; rewrite (fold_preserves get F);
        [destruct (fold_left GptConfigBuilder.apply _ GptConfigBuilder.default); reflexivity
        | intros [] []; simpl; congruence | exact H]);
  clear Eb; destruct b; cbn in Hb; subst; reflexivity.

(** A NaN given to any of the four clamping setters, when no later call
    sets the same field, reaches the request unchanged, and serde_json
    writes it as [null] in the request body. *)
Theorem nan_sent_as_null (calls later : list GptConfigBuilder.setter) (url key message : string)
  (stream : bool) :
  let body (s : GptConfigBuilder.setter) :=
    Serialize.gpt_request
      (with_stream (build_request (GptClient.mk url key (GptConfigBuilder.run (calls ++ s :: later)))
                      message) stream) in
  (Forall (fun c => setter_field c <> FTemperature) later ->
   Serialize.lookup "temperature" (body (GptConfigBuilder.Temperature NaN)) = Some Json.JNull) /\
  (Forall (fun c => setter_field c <> FTopP) later ->
   Serialize.lookup "top_p" (body (GptConfigBuilder.TopP NaN)) = Some Json.JNull) /\
  (Forall (fun c => setter_field c <> FFrequencyPenalty) later ->
   Serialize.lookup "frequency_penalty" (body (GptConfigBuilder.FrequencyPenalty NaN))
     = Some Json.JNull) /\
  (Forall (fun c => setter_field c <> FPresencePenalty) later ->
   Serialize.lookup "presence_penalty" (body (GptConfigBuilder.PresencePenalty NaN))
     = Some Json.JNull).
Proof.
  cbv zeta. split; [| split; [| split]].
  - nan_field GptConfigBuilder.temperature FTemperature later.
  - nan_field GptConfigBuilder.top_p FTopP later.
  - nan_field GptConfigBuilder.frequency_penalty FFrequencyPenalty later.
  - nan_field GptConfigBuilder.presence_penalty FPresencePenalty later.
Qed.

(** X11 witness: [temperature(NaN)] followed by [max_tokens(5)]. *)
Lemma nan_sent_as_null_witness :
  Serialize.lookup "temperature"
    (Serialize.gpt_request
       (with_stream
          (build_request
             (GptClient.mk "u" "k"
                (GptConfigBuilder.run ([] ++ GptConfigBuilder.Temperature NaN ::
                                       [GptConfigBuilder.MaxTokens 5])))
             "hi") false))
  = Some Json.JNull.
Proof.
  apply (proj1 (nan_sent_as_null [] [GptConfigBuilder.MaxTokens 5] "u" "k" "hi" false)).
  constructor; [cbn; discriminate | constructor].
Defined.

(** ** More of the stream decoder *)

Section DecoderShape.
Import Decoder.

Definition good_item (it : item) : Prop :=
  match it with
  | Ok c => c <> EmptyString
  | Err (ParseError _) => True
  | Err _ => False
  end.

Lemma on_data_good (d : string) : Forall good_item (on_data d).
Proof.
  unfold on_data. destruct (from_str_GptResponse d) as [r | e]; [| repeat constructor].
  destruct (hd_error (GptResponse.choices r)) as [ch|]; [| constructor].
  destruct (Choice.delta ch) as [dl|]; [| constructor].
  destruct (Delta.content dl) as [c|]; [| constructor].
  destruct (negb (Str.is_empty c)) eqn:E; [| constructor].
  constructor; [| constructor]. simpl. intros ->. discriminate.
Qed.

Lemma drain_good (buf : string) : Forall good_item (fst (drain buf)).
Proof.
  remember (String.length buf) as n eqn:Hn. revert buf Hn.
  induction n as [n IH] using lt_wf_ind. intros buf Hn.
  rewrite drain_eq. destruct (Str.find_nn buf) as [pos|] eqn:E; [| constructor].
  pose proof (find_nn_bound _ _ E) as Hb.
  assert (Hlt : String.length (Str.drop (pos + 2) buf) < n) by (rewrite drop_length; lia).
  destruct (Str.starts_with _ _); [destruct (String.eqb _ _); [constructor |] |].
  - pose proof (IH _ Hlt _ eq_refl) as H.
    destruct (drain (Str.drop (pos + 2) buf)) as [sent b']. simpl in *.
    apply Forall_app. split; [apply on_data_good | exact H].
  - exact (IH _ Hlt _ eq_refl).
Qed.

Lemma task_shape (stream : list (result string reqwest_error)) (b : string) :
  exists xs tail, task b stream = (xs ++ tail)%list /\ Forall good_item xs /\
    (tail = [] \/ exists e, tail = [Err (RequestError e)] /\ In (Err e) stream).
Proof.
  revert b. induction stream as [| [c | e] rest IH]; intros b.
  - exists [], []. split; [reflexivity | split; [constructor | left; reflexivity]].
  - simpl. unfold on_chunk.
    destruct (IH (if Str.utf8_valid c then snd (drain (b ++ c)) else b))
      as (xs & tail & Ht & Hxs & Htail).
    destruct (Str.utf8_valid c).
    + pose proof (drain_good (b ++ c)) as Hd.
      destruct (drain (b ++ c)) as [sent b']. simpl in *.
      exists (sent ++ xs)%list, tail. rewrite Ht, app_assoc.
      split; [reflexivity | split; [apply Forall_app; split; assumption |]].
      destruct Htail as [-> | (e & -> & Hin)]; [left; reflexivity | right; exists e; split;
        [reflexivity | right; exact Hin]].
    + exists xs, tail. split; [exact Ht | split; [exact Hxs |]].
      destruct Htail as [-> | (e & -> & Hin)]; [left; reflexivity | right; exists e; split;
        [reflexivity | right; exact Hin]].
  - exists [], [Err (RequestError e)]. split; [reflexivity | split; [constructor |]].
    right. exists e. split; [reflexivity | left; reflexivity].
Qed.

Lemma task_error_ends (cs : list string) (e : reqwest_error)
  (rest : list (result string reqwest_error)) (b : string) :
  task b (map Ok cs ++ Err e :: rest) = (task b (map Ok cs) ++ [Err (RequestError e)])%list.
Proof.
  revert b. induction cs as [| c cs IH]; intros b; [reflexivity |].
  simpl. destruct (on_chunk b c) as [sent b']. rewrite IH, app_assoc. reflexivity.
Qed.

Lemma find_nn_app_none (x y : string) :
  Str.find_nn (x ++ y) = None -> Str.find_nn x = None.
Proof.
  intros H. destruct (Str.find_nn x) as [k|] eqn:E; [| reflexivity].
  apply (find_nn_app_some x y) in E. congruence.
Qed.

Lemma task_no_blank_line (chunks : list string) (b : string) :
  Forall (fun c => Str.utf8_valid c = true) chunks ->
  Str.find_nn (b ++ join chunks) = None -> task b (map Ok chunks) = [].
Proof.
  revert b. induction chunks as [| c cs IH]; intros b Hu H; [reflexivity |].
  inversion Hu as [| ? ? Hc Hcs]; subst. simpl in H |- *. unfold on_chunk. rewrite Hc.
  rewrite <- str_app_assoc in H.
  rewrite (drain_none (b ++ c) (find_nn_app_none _ _ H)).
  apply IH; assumption.
Qed.

Lemma utf8_valid_nn (r : string) :
  Str.utf8_valid (String Str.nl (String Str.nl r)) = Str.utf8_valid r.
Proof. reflexivity. Qed.


Lemma task_drop_invalid (xs : list string) (bad : string)
  (rest : list (result string reqwest_error)) (b : string) :
  Str.utf8_valid bad = false ->
  task b (map Ok xs ++ Ok bad :: rest) = task b (map Ok xs ++ rest).
Proof.
  intros Hbad. revert b. induction xs as [| c xs IH]; intros b.
  - cbn [map List.app task]. unfold on_chunk. rewrite Hbad. reflexivity.
  - cbn [map List.app task]. destruct (on_chunk b c) as [sent b']. rewrite IH. reflexivity.
Qed.

End DecoderShape.

(** Whatever the body stream yields, the stream task sends non-empty
    fragments and [ParseError]s, possibly followed by one last
    [RequestError] carrying a transport error the stream yielded; it never
    sends an empty fragment, and never anything after a [RequestError]. *)
Theorem decode_items_shape (stream : list (result string reqwest_error)) :
  exists xs tail,
    Decoder.decode stream = (xs ++ tail)%list /\
    Forall (fun it => match it with
                      | Ok c => c <> EmptyString
                      | Err (ParseError _) => True
                      | Err _ => False
                      end) xs /\
    (tail = [] \/ exists e, tail = [Err (RequestError e)] /\ In (Err e) stream).
Proof. exact (task_shape stream EmptyString). Qed.

(** A transport error ends the stream task: what it sends is what the
    chunks before the error give, then one [RequestError]; nothing the
    stream would yield afterwards is read. *)
Theorem transport_error_ends (cs : list string) (e : reqwest_error)
  (rest : list (result string reqwest_error)) :
  Decoder.decode (map Ok cs ++ Err e :: rest) =
  (Decoder.decode (map Ok cs) ++ [Err (RequestError e)])%list.
Proof. apply task_error_ends. Qed.

(** A blank-line-terminated message that does not start with "data: "
    (an SSE comment such as ": keep-alive", an "event:" or "id:" line, or a
    "data:" line without the space) is dropped without a trace: the task
    goes on as if the chunk had started after it. *)
Theorem non_data_frames_skipped (m r : string) (stream : list (result string reqwest_error))
  (Hm : Str.find_nn (m ++ String Str.nl EmptyString) = None)
  (Hpre : String.prefix "data: " m = false)
  (Hum : Str.utf8_valid m = true) (Hur : Str.utf8_valid r = true) :
  Decoder.decode (Ok (m ++ String Str.nl (String Str.nl r)) :: stream) =
  Decoder.decode (Ok r :: stream).
Proof.
  unfold Decoder.decode. cbn [Decoder.task]. unfold Decoder.on_chunk.
  rewrite (utf8_valid_app m _ Hum ltac:(rewrite utf8_valid_nn; exact Hur)), Hur.
  cbn [String.append].
  rewrite (drain_eq (m ++ String Str.nl (String Str.nl r))), (find_nn_first m r Hm).
  rewrite take_length_app, drop_past_nn. unfold Str.starts_with. rewrite Hpre.
  reflexivity.
Qed.

Lemma non_data_frames_skipped_witness :
  Decoder.decode [Ok (("data:" ++ Scenario.delta_payload "x") ++
                      String Str.nl (String Str.nl (Decoder.frame (Scenario.delta_payload "y"))))]
  = [Ok "y"].
Proof.
  rewrite (non_data_frames_skipped ("data:" ++ Scenario.delta_payload "x")
             (Decoder.frame (Scenario.delta_payload "y")) []);
    [vm_compute; reflexivity | reflexivity | reflexivity | reflexivity | reflexivity].
Defined.

(** When the body never holds a blank line ("\n\n"), as with frames ended by
    "\r\n\r\n", and its chunks are valid UTF-8, the stream task sends
    nothing at all. *)
Theorem no_blank_line_nothing_sent (chunks : list string)
  (Hu : Forall (fun c => Str.utf8_valid c = true) chunks)
  (H : Str.find_nn (Decoder.join chunks) = None) :
  Decoder.decode (map Ok chunks) = [].
Proof. exact (task_no_blank_line chunks EmptyString Hu H). Qed.

Lemma no_blank_line_nothing_sent_witness :
  Decoder.decode
    [Ok ("data: " ++ Scenario.delta_payload "x" ++
         String "013" (String Str.nl (String "013" (String Str.nl EmptyString))))] = [].
Proof.
  apply (no_blank_line_nothing_sent
           ["data: " ++ Scenario.delta_payload "x" ++
            String "013" (String Str.nl (String "013" (String Str.nl EmptyString)))]).
  - repeat constructor.
  - vm_compute. reflexivity.
Defined.



(** ** The loop of [main] *)

Section MainLoop.
Import Str Main.

Lemma forallb_impl (f g : ascii -> bool) (l : list ascii) :
  (forall c, f c = true -> g c = true) -> forallb f l = true -> forallb g l = true.
Proof.
  intros Hfg. induction l as [| c l IH]; simpl; [reflexivity |].
  intros H. apply andb_true_iff in H as [H1 H2]. rewrite (Hfg c H1), (IH H2). reflexivity.
Qed.

Lemma forallb_rev_ascii (f : ascii -> bool) (l : list ascii) :
  forallb f (rev l) = forallb f l.
Proof.
  induction l as [| c l IH]; simpl; [reflexivity |].
  rewrite forallb_app, IH. simpl. rewrite andb_true_r, andb_comm. reflexivity.
Qed.

Lemma list_ascii_app (x y : string) :
  list_ascii_of_string (x ++ y) = (list_ascii_of_string x ++ list_ascii_of_string y)%list.
Proof. induction x as [| c x IH]; simpl; [reflexivity | now rewrite IH]. Qed.

Lemma string_of_list_app (l1 l2 : list ascii) :
  string_of_list_ascii (l1 ++ l2) = string_of_list_ascii l1 ++ string_of_list_ascii l2.
Proof. induction l1 as [| c l1 IH]; simpl; [reflexivity | now rewrite IH]. Qed.

Lemma rev_str_app (x y : string) : rev_str (x ++ y) = rev_str y ++ rev_str x.
Proof.
  unfold rev_str. rewrite list_ascii_app, rev_app_distr, string_of_list_app. reflexivity.
Qed.

Lemma rev_str_involutive (x : string) : rev_str (rev_str x) = x.
Proof.
  unfold rev_str. rewrite list_ascii_of_string_of_list_ascii, rev_involutive.
  apply string_of_list_ascii_of_string.
Qed.

Lemma blank_ws1 (c : ascii) : is_blank c = true -> ws1 c = true.
Proof.
  unfold is_blank. intros H. apply orb_true_iff in H as [H | H];
    apply Ascii.eqb_eq in H; subst; reflexivity.
Qed.

Lemma blank_ascii (c : ascii) : is_blank c = true -> (byte c <? 128) = true.
Proof.
  unfold is_blank. intros H. apply orb_true_iff in H as [H | H];
    apply Ascii.eqb_eq in H; subst; reflexivity.
Qed.

Lemma blank_not_nl (c : ascii) : is_blank c = true -> negb (Ascii.eqb c nl) = true.
Proof.
  unfold is_blank. intros H. apply orb_true_iff in H as [H | H];
    apply Ascii.eqb_eq in H; subst; reflexivity.
Qed.

Lemma ascii_not_ws23 (c x y : ascii) : byte c < 128 -> ws2 c x = false /\ ws3 c x y = false.
Proof.
  intros H. unfold ws2, ws3. cbv zeta.
  assert (E1 : (byte c =? 194) = false) by (apply Nat.eqb_neq; lia).
  assert (E2 : (byte c =? 225) = false) by (apply Nat.eqb_neq; lia).
  assert (E3 : (byte c =? 226) = false) by (apply Nat.eqb_neq; lia).
  assert (E4 : (byte c =? 227) = false) by (apply Nat.eqb_neq; lia).
  rewrite E1, E2, E3, E4. split; reflexivity.
Qed.

Lemma trim_start_blanks (a s : string) :
  forallb is_blank (list_ascii_of_string a) = true -> trim_start (a ++ s) = trim_start s.
Proof.
  induction a as [| c a IH]; intros H; [reflexivity |].
  cbn [list_ascii_of_string forallb] in H. apply andb_true_iff in H as [H1 H2].
  cbn [String.append trim_start]. rewrite (blank_ws1 c H1). exact (IH H2).
Qed.

Lemma trim_start_rev_blanks (a s : string) :
  forallb is_blank (list_ascii_of_string a) = true -> trim_start_rev (a ++ s) = trim_start_rev s.
Proof.
  induction a as [| c a IH]; intros H; [reflexivity |].
  cbn [list_ascii_of_string forallb] in H. apply andb_true_iff in H as [H1 H2].
  cbn [String.append trim_start_rev]. rewrite (blank_ws1 c H1). exact (IH H2).
Qed.

Lemma trim_start_ascii (c : ascii) (r : string) :
  byte c < 128 -> ws1 c = false -> trim_start (String c r) = String c r.
Proof.
  intros Hc Hws. cbn [trim_start]. rewrite Hws.
  destruct r as [| c2 r2]; [reflexivity |].
  rewrite (proj1 (ascii_not_ws23 c c2 c2 Hc)).
  destruct r2 as [| c3 r3]; [reflexivity |].
  rewrite (proj2 (ascii_not_ws23 c c2 c3 Hc)). reflexivity.
Qed.

Lemma trim_start_rev_ascii (d : ascii) (r : string) :
  is_ascii_str (String d r) = true -> ws1 d = false -> trim_start_rev (String d r) = String d r.
Proof.
  intros Ha Hws. cbn [trim_start_rev]. rewrite Hws.
  destruct r as [| c2 r2]; [reflexivity |].
  unfold is_ascii_str in Ha. cbn [list_ascii_of_string forallb] in Ha.
  apply andb_true_iff in Ha as [_ Ha]. apply andb_true_iff in Ha as [H2 Ha].
  apply Nat.ltb_lt in H2.
  rewrite (proj1 (ascii_not_ws23 c2 d d H2)).
  destruct r2 as [| c3 r3]; [reflexivity |].
  apply andb_true_iff in Ha as [H3 _]. apply Nat.ltb_lt in H3.
  rewrite (proj2 (ascii_not_ws23 c3 c2 d H3)). reflexivity.
Qed.

Lemma read_line_app (x rest : string) :
  forallb (fun d => negb (Ascii.eqb d nl)) (list_ascii_of_string x) = true ->
  read_line (x ++ String nl rest) = (x ++ String nl EmptyString, rest).
Proof.
  induction x as [| c x IH]; intros H; [reflexivity |].
  cbn [list_ascii_of_string forallb] in H. apply andb_true_iff in H as [H1 H2].
  apply negb_true_iff in H1. cbn [String.append read_line]. rewrite H1, (IH H2).
  reflexivity.
Qed.

Lemma utf8_valid_ascii (s : string) : is_ascii_str s = true -> utf8_valid s = true.
Proof.
  induction s as [| c s IH]; intros H; [reflexivity |].
  unfold is_ascii_str in H. cbn [list_ascii_of_string forallb] in H.
  apply andb_true_iff in H as [H1 H2].
  cbn [utf8_valid]. unfold lead_of at 1. cbv zeta. rewrite H1. exact (IH H2).
Qed.

Lemma plain_text_facts (w : string) :
  plain_text w = true ->
  is_ascii_str w = true /\
  forallb (fun d => negb (Ascii.eqb d nl)) (list_ascii_of_string w) = true /\
  exists c l d l',
    w = String c (string_of_list_ascii l) /\ byte c < 128 /\ ws1 c = false /\
    rev_str w = String d (string_of_list_ascii l') /\ ws1 d = false.
Proof.
  unfold plain_text. destruct w as [| c w0]; [discriminate |].
  cbn [list_ascii_of_string]. intros H.
  apply andb_true_iff in H as [H Hl]. apply andb_true_iff in H as [H Hc].
  apply andb_true_iff in H as [Ha Hn]. apply negb_true_iff in Hc, Hl.
  split; [exact Ha | split; [exact Hn |]].
  destruct (exists_last (l := c :: list_ascii_of_string w0) ltac:(discriminate))
    as (l' & d & Hd).
  exists c, (list_ascii_of_string w0), d, (rev l').
  split; [rewrite string_of_list_ascii_of_string; reflexivity |].
  split; [unfold is_ascii_str in Ha; cbn [list_ascii_of_string forallb] in Ha;
          apply andb_true_iff in Ha as [Ha _]; apply Nat.ltb_lt; exact Ha |].
  split; [exact Hc |].
  split.
  - unfold rev_str. cbn [list_ascii_of_string]. rewrite Hd, rev_unit. reflexivity.
  - rewrite Hd, last_last in Hl. exact Hl.
Qed.

Lemma trim_line (a w b : string) :
  forallb is_blank (list_ascii_of_string a) = true ->
  forallb is_blank (list_ascii_of_string b) = true ->
  plain_text w = true ->
  trim (a ++ w ++ b ++ String nl EmptyString) = w.
Proof.
  intros Ha Hb Hw.
  destruct (plain_text_facts w Hw) as (Hasc & _ & c & l & d & l' & Hw0 & Hc & Hcw & Hr & Hd).
  unfold trim. rewrite (trim_start_blanks a _ Ha).
  rewrite Hw0 at 1. cbn [String.append].
  rewrite (trim_start_ascii c _ Hc Hcw).
  change (String c (string_of_list_ascii l ++ b ++ String nl EmptyString))
    with ((String c (string_of_list_ascii l)) ++ b ++ String nl EmptyString).
  rewrite <- Hw0, rev_str_app, rev_str_app.
  change (rev_str (String nl EmptyString)) with (String nl EmptyString).
  cbn [String.append].
  change (trim_start_rev (String nl (rev_str b ++ rev_str w)))
    with (trim_start_rev (rev_str b ++ rev_str w)).
  rewrite trim_start_rev_blanks
    by (unfold rev_str; rewrite list_ascii_of_string_of_list_ascii, forallb_rev_ascii; exact Hb).
  rewrite Hr, trim_start_rev_ascii, <- Hr; [apply rev_str_involutive | | exact Hd].
  rewrite <- Hr. unfold is_ascii_str, rev_str.
  rewrite list_ascii_of_string_of_list_ascii, forallb_rev_ascii. exact Hasc.
Qed.

Lemma get_user_input_line (a w b rest : string) :
  forallb is_blank (list_ascii_of_string a) = true ->
  forallb is_blank (list_ascii_of_string b) = true ->
  plain_text w = true ->
  get_user_input (a ++ w ++ b ++ String nl rest) = Ok (w, rest).
Proof.
  intros Ha Hb Hw. destruct (plain_text_facts w Hw) as (Hasc & Hnl & _).
  unfold get_user_input.
  replace (a ++ w ++ b ++ String nl rest) with ((a ++ w ++ b) ++ String nl rest)
    by (rewrite !str_app_assoc; reflexivity).
  rewrite read_line_app
    by (rewrite !list_ascii_app, !forallb_app, Hnl,
          (forallb_impl _ _ _ blank_not_nl Ha), (forallb_impl _ _ _ blank_not_nl Hb);
        reflexivity).
  rewrite utf8_valid_ascii.
  - rewrite !str_app_assoc. rewrite (trim_line a w b Ha Hb Hw). reflexivity.
  - unfold is_ascii_str. rewrite !list_ascii_app, !forallb_app.
    rewrite (forallb_impl _ _ _ blank_ascii Ha), (forallb_impl _ _ _ blank_ascii Hb).
    unfold is_ascii_str in Hasc. rewrite Hasc. reflexivity.
Qed.

Lemma get_user_input_eof : get_user_input EmptyString = Ok (EmptyString, EmptyString).
Proof. reflexivity. Qed.

Lemma get_user_input_bad (x rest : string) :
  forallb (fun d => negb (Ascii.eqb d nl)) (list_ascii_of_string x) = true ->
  utf8_valid (x ++ String nl EmptyString) = false ->
  get_user_input (x ++ String nl rest) = Err tt.
Proof.
  intros Hn Hu. unfold get_user_input. rewrite (read_line_app x rest Hn), Hu. reflexivity.
Qed.

End MainLoop.

(** One turn of [main]'s loop on a line of ASCII text: the spaces and tabs
    around it are dropped; "exit" and "/stream" are recognised in any letter
    case, the first ending the loop and the second flipping the mode; any
    other text is sent as it was typed (same letter case), by [ask] or by
    [ask_stream] according to the mode, and the loop goes on with the rest
    of the input. *)
Theorem command_line_turn (lower : string -> string)
  (Hlower : forall s, Main.is_ascii_str s = true -> lower s = Main.ascii_lower s)
  (a w b rest : string) (mode : bool) (fuel : nat)
  (Ha : forallb Main.is_blank (list_ascii_of_string a) = true)
  (Hb : forallb Main.is_blank (list_ascii_of_string b) = true)
  (Hw : Main.plain_text w = true) :
  Main.main_loop lower (S fuel) mode (a ++ w ++ b ++ String Str.nl rest) =
  if String.eqb (Main.ascii_lower w) "exit" then [Main.Goodbye]
  else if String.eqb (Main.ascii_lower w) "/stream" then
    Main.Toggled (negb mode) :: Main.main_loop lower fuel (negb mode) rest
  else (if mode then Main.AskStream w else Main.Ask w) :: Main.main_loop lower fuel mode rest.
Proof.
  cbn [Main.main_loop]. rewrite (get_user_input_line a w b rest Ha Hb Hw).
  cbv beta iota. rewrite (Hlower w (proj1 (plain_text_facts w Hw))). reflexivity.
Qed.

Lemma command_line_turn_witness :
  Main.main_loop Main.ascii_lower 1 false
    (" " ++ "ExIt" ++ String "009" EmptyString ++ String Str.nl "hello") = [Main.Goodbye] /\
  Main.main_loop Main.ascii_lower 2 false
    (EmptyString ++ "/Stream" ++ " " ++ String Str.nl "Hi") =
  [Main.Toggled true; Main.AskStream "Hi"].
Proof.
  split.
  - rewrite (command_line_turn Main.ascii_lower (fun s _ => eq_refl) " " "ExIt"
               (String "009" EmptyString) "hello" false 0);
      [reflexivity | reflexivity | reflexivity | reflexivity].
  - rewrite (command_line_turn Main.ascii_lower (fun s _ => eq_refl) EmptyString "/Stream"
               " " "Hi" false 1);
      [reflexivity | reflexivity | reflexivity | reflexivity].
Defined.

(** At the end of the input [read_line] reads nothing and succeeds, and the
    loop never stops: each turn sends the empty message, by [ask] or by
    [ask_stream] according to the mode. *)
Theorem eof_repeats_empty (lower : string -> string)
  (Hlower : lower EmptyString = EmptyString) (fuel : nat) (mode : bool) :
  Main.main_loop lower fuel mode EmptyString =
  repeat (if mode then Main.AskStream EmptyString else Main.Ask EmptyString) fuel.
Proof.
  induction fuel as [| f IH]; [reflexivity |].
  cbn [Main.main_loop]. rewrite get_user_input_eof. cbv beta iota.
  change (Main.trim EmptyString) with EmptyString. rewrite Hlower.
  cbn [String.eqb]. rewrite IH. reflexivity.
Qed.

Lemma eof_repeats_empty_witness :
  Main.ascii_lower EmptyString = EmptyString /\
  Main.main_loop Main.ascii_lower 3 true EmptyString =
  [Main.AskStream EmptyString; Main.AskStream EmptyString; Main.AskStream EmptyString].
Proof.
  split; [reflexivity | apply (eof_repeats_empty Main.ascii_lower eq_refl 3 true)].
Defined.

(** A line that is not valid UTF-8 makes [read_line] fail, and [main]
    returns that error at once: whatever the mode and the rest of the
    input, the loop ends there and nothing is sent for the line. *)
Theorem invalid_line_ends_loop (lower : string -> string) (x rest : string)
  (mode : bool) (fuel : nat)
  (Hn : forallb (fun d => negb (Ascii.eqb d Str.nl)) (list_ascii_of_string x) = true)
  (Hu : Str.utf8_valid (x ++ String Str.nl EmptyString) = false) :
  Main.main_loop lower (S fuel) mode (x ++ String Str.nl rest) = [Main.InputFailed].
Proof. cbn [Main.main_loop]. rewrite (get_user_input_bad x rest Hn Hu). reflexivity. Qed.

Lemma invalid_line_ends_loop_witness :
  Main.main_loop Main.ascii_lower 5 true (String "255" "x" ++ String Str.nl "exit") =
  [Main.InputFailed].
Proof. apply invalid_line_ends_loop; reflexivity. Defined.

(** A chunk of the body that is not valid UTF-8 is dropped as if it had
    never arrived: the stream task sends what it would send for the other
    chunks alone, so the bytes of a character cut between two chunks are
    lost together with the rest of both chunks. *)
Theorem invalid_chunks_dropped (xs : list string) (bad : string)
  (rest : list (result string reqwest_error))
  (Hbad : Str.utf8_valid bad = false) :
  Decoder.decode (map Ok xs ++ Ok bad :: rest) = Decoder.decode (map Ok xs ++ rest).
Proof. exact (task_drop_invalid xs bad rest EmptyString Hbad). Qed.

Lemma invalid_chunks_dropped_witness :
  Decoder.decode (map Ok [Decoder.frame (Scenario.delta_payload "A")] ++
                  Ok (String "255" (Decoder.frame (Scenario.delta_payload "X"))) ::
                  [Ok (Decoder.frame (Scenario.delta_payload "B"))])
  = [Ok "A"; Ok "B"].
Proof.
  rewrite invalid_chunks_dropped by reflexivity. vm_compute. reflexivity.
Defined.
